(** * PhishGuard scoring service (app.py): a shallow embedding

    The service scores a URL, an email body, or both.  Python [float] is
    IEEE 754 binary64, modelled by Rocq's primitive floats, so every
    arithmetic step below rounds exactly as CPython does.  A Python [str] is
    a sequence of code points.  Python exceptions are modelled by the
    [result] monad.  Everything the module obtains from
    a library or from the network (urlparse, tldextract, WHOIS, DNS, TLS,
    math.log2, the iteration order of a set, the system clock, the pickled
    models) is an oracle: a field of [World], of [Classifier] or of
    [Vectorizer]. *)

From Stdlib Require Import ZArith Floats Uint63 String Ascii List Bool Lia.
Import ListNotations.

Set Warnings "-inexact-float,-register-all".
Local Open Scope Z_scope.

(** ** Exceptions *)

Inductive exn : Set :=
| AttributeError
| IndexError
| TypeError
| ValueError
| ZeroDivisionError
| OSError
| LibraryError (name : string).

Inductive result (A : Type) : Type :=
| Ok (a : A)
| Raise (e : exn).

Arguments Ok {A} a.
Arguments Raise {A} e.

Definition bind {A B : Type} (r : result A) (k : A -> result B) : result B :=
  match r with
  | Ok a => k a
  | Raise e => Raise e
  end.

Declare Scope py_scope.
Delimit Scope py_scope with py.
Notation "x <- e ;; k" := (bind e (fun x => k))
  (at level 100, e at next level, right associativity) : py_scope.
Local Open Scope py_scope.

(** [try: body / except: handler] with a bare [except]: every exception of
    the body is swallowed and the handler's value is used instead. *)
Definition try_except {A : Type} (body : result A) (handler : A) : A :=
  match body with
  | Ok a => a
  | Raise _ => handler
  end.

(** [for x in l] collecting results, left to right, stopping at the first
    exception (a list comprehension). *)
Fixpoint comprehension {A B : Type} (f : A -> result B) (l : list A) : result (list B) :=
  match l with
  | [] => Ok []
  | x :: l' => y <- f x ;; ys <- comprehension f l' ;; Ok (y :: ys)
  end.

(** [l[i]] on a list or an array. *)
Definition getitem {A : Type} (l : list A) (i : nat) : result A :=
  match nth_error l i with
  | Some x => Ok x
  | None => Raise IndexError
  end.

(** ** Numbers *)

(** The largest [len] of a CPython object on a 64-bit build ([sys.maxsize]). *)
Definition sys_maxsize : Z := 9223372036854775807.

(** [float(n)] for an integer [0 <= n <= sys.maxsize] (lengths, counts and
    the rule counter): the nearest binary64, ties to even.  Outside that
    range the conversion below wraps modulo 2^63 where CPython does not; no
    such integer occurs in the module. *)
Definition float_of_int (n : Z) : float := of_uint63 (Uint63.of_Z n).

(** [x / n] with [x] a float and [n] an int: [n] is converted, and a zero
    divisor raises. *)
Definition float_div_int (x : float) (n : Z) : result float :=
  if n =? 0 then Raise ZeroDivisionError else Ok (x / float_of_int n)%float.

(** [a / b] on two small ints (true division). *)
Definition int_truediv (a b : Z) : result float :=
  float_div_int (float_of_int a) b.

(** [sum(l)] as CPython up to 3.11 computes it: it starts from the int [0],
    which the first addition converts, and adds from left to right.
    (CPython 3.12 and later compensate the rounding errors of a float sum;
    the two algorithms agree on the lists of at most one element.  One
    statement below evaluates a longer sum: the two runs on the label
    google, which are runs of CPython 3.11.) *)
Definition sum (l : list float) : float := fold_left PrimFloat.add l 0%float.

(** ** Strings

    A Python [str] is a sequence of Unicode code points, and [len], [count]
    and [split] work on code points: one character is one element, whatever
    its encoding takes.  The literals of the source (dict keys, risk labels,
    the separator) are ASCII and are written as Rocq strings. *)

Definition codepoint : Set := N.
Definition str : Set := list codepoint.

(** [ord(c)] for an ASCII character. *)
Definition ord (a : ascii) : codepoint := N_of_ascii a.

(** An ASCII literal as a [str]. *)
Definition lit (s : string) : str := map ord (list_ascii_of_string s).

Definition len (s : str) : Z := Z.of_nat (List.length s).

(** [s.count(c)] for a one-character [c]. *)
Fixpoint count (c : codepoint) (s : str) : Z :=
  match s with
  | [] => 0
  | a :: s' => (if N.eqb a c then 1 else 0) + count c s'
  end.

(** [s.split(sep)] for a one-character separator. *)
Fixpoint split (sep : codepoint) (s : str) : list str :=
  match s with
  | [] => [[]]
  | a :: s' =>
      if N.eqb a sep then [] :: split sep s'
      else match split sep s' with
           | h :: t => (a :: h) :: t
           | [] => [[a]]
           end
  end.

(** ** Dynamic values: what WHOIS hands back, and what a response holds *)

Record datetime : Set := { timestamp_us : Z; tz_aware : bool }.

Inductive PyValue : Set :=
| PyNone
| PyBool (b : bool)
| PyFloat (f : float)
| PyStr (s : string)
| PyDatetime (d : datetime)
| PyList (l : list PyValue).

(** [(now - created).days]: subtracting a naive and an aware datetime raises
    TypeError, and [timedelta.days] is the floor of the difference in days.
    In the module [now] comes from [datetime.utcnow()] and is naive. *)
Definition days_since (now created : datetime) : result Z :=
  if xorb (tz_aware now) (tz_aware created) then Raise TypeError
  else Ok ((timestamp_us now - timestamp_us created) / 86400000000).

(** A dict literal, keys in source order. *)
Definition dict : Set := list (string * PyValue).

Fixpoint dict_get (d : dict) (k : string) : option PyValue :=
  match d with
  | [] => None
  | (k', v) :: d' => if String.eqb k' k then Some v else dict_get d' k
  end.

(** ** The outside world *)

Record World : Type := {
  (** [math.log2] where it is defined (positive arguments and NaN) *)
  libm_log2 : float -> float;
  (** the order in which [set(s)] yields the distinct characters of [s]; it
      depends on the hash seed of the interpreter process *)
  set_iter : str -> list codepoint;
  (** [urlparse(url).netloc] *)
  urlparse_netloc : str -> result str;
  (** [tldextract.extract(domain).registered_domain] *)
  registered_domain : str -> str;
  (** the system clock, as [datetime.utcnow()] reads it: microseconds of
      UTC wall time *)
  clock_us : Z;
  (** [whois.whois(domain).creation_date] *)
  whois_creation_date : str -> result PyValue;
  (** [dns.resolver.resolve(domain, 'A')] *)
  dns_resolve : str -> result unit;
  (** the TLS handshake on port 443 of the [with] block *)
  tls_handshake : str -> result unit
}.

(** [datetime.utcnow()]: the clock as a naive datetime (no tzinfo), always. *)
Definition utcnow (w : World) : datetime :=
  {| timestamp_us := clock_us w; tz_aware := false |}.

(** What Python and the C library guarantee of the two pure oracles. *)
Record WorldOK (w : World) : Prop := {
  set_iter_nodup : forall s, NoDup (set_iter w s);
  set_iter_mem : forall s c, In c (set_iter w s) <-> In c s;
  libm_log2_one : libm_log2 w 1%float = 0%float
}.

(** [math.log2(x)]: a domain error for zero and negative arguments. *)
Definition math_log2 (w : World) (x : float) : result float :=
  if (x <=? 0)%float then Raise ValueError else Ok (libm_log2 w x).

(** ** Domain rule agent *)

Definition shannon_entropy (w : World) (s : str) : result float :=
  if len s =? 0 then Ok 0%float
  else
    prob <- comprehension (fun c => float_div_int (float_of_int (count c s)) (len s))
                          (set_iter w s) ;;
    terms <- comprehension (fun p => l <- math_log2 w p ;; Ok (p * l)%float) prob ;;
    Ok (- sum terms)%float.

Record Info : Set := {
  age : option Z;
  dns : bool;
  ssl : bool;
  entropy : float
}.

Definition whois_age (w : World) (registered : str) : result (option Z) :=
  created <- whois_creation_date w registered ;;
  created <- match created with
             | PyList l => getitem l 0
             | _ => Ok created
             end ;;
  match created with
  | PyDatetime d => days <- days_since (utcnow w) d ;; Ok (Some days)
  | _ => Ok None
  end.

Definition extract_domain_info (w : World) (url : str) : result Info :=
  netloc <- urlparse_netloc w url ;;
  let domain := if len netloc =? 0 then url else netloc in
  let registered := registered_domain w domain in
  let info_age := try_except (whois_age w registered) None in
  let info_dns := try_except (_ <- dns_resolve w registered ;; Ok true) false in
  let info_ssl := try_except (_ <- tls_handshake w registered ;; Ok true) false in
  label <- getitem (split (ord ".") registered) 0 ;;
  e <- shannon_entropy w label ;;
  Ok {| age := info_age; dns := info_dns; ssl := info_ssl; entropy := e |}.

Definition rule_score (info : Info) : result float :=
  let score := 0 in
  let total := 4 in
  let score := if match age info with Some a => a <? 30 | None => false end
               then score + 1 else score in
  let score := if negb (dns info) then score + 1 else score in
  let score := if negb (ssl info) then score + 1 else score in
  let score := if (3.5 <? entropy info)%float then score + 1 else score in
  int_truediv score total.

Definition risk_level (prob : float) : string :=
  if (prob <? 0.3)%float then "LOW"%string
  else if (prob <? 0.6)%float then "MEDIUM"%string
  else "HIGH"%string.

(** ** Models *)

Definition Matrix : Set := list (list float).

(** The pickled estimators, as far as the module calls them.  A call
    returns a matrix or raises what the library raises (ValueError on a
    matrix of the wrong width, for one). *)
Record Classifier : Set := { predict_proba : Matrix -> result Matrix }.
Record Vectorizer : Set := { transform : list str -> result Matrix }.

(** The five module-level globals; [None] is Python's [None]. *)
Record Globals : Set := {
  url_model : option Classifier;
  email_model : option Classifier;
  coord_model : option Classifier;
  url_vec : option Vectorizer;
  email_vec : option Vectorizer
}.

Definition URL_BLEND : float := 0.3%float.

(** The module as imported: every model global is [None]. *)
Definition initial_globals : Globals :=
  {| url_model := None; email_model := None; coord_model := None;
     url_vec := None; email_vec := None |}.

(** What [joblib.load] returns for the five pickles. *)
Record Pickles : Set := {
  url_agent_pkl : Classifier;
  email_agent_pkl : Classifier;
  coordinator_agent_pkl : Classifier;
  url_vectorizer_pkl : Vectorizer;
  email_vectorizer_pkl : Vectorizer
}.

(** The startup hook, when the five pickles load. *)
Definition load_models (disk : Pickles) (g : Globals) : Globals :=
  {| url_model := Some (url_agent_pkl disk);
     email_model := Some (email_agent_pkl disk);
     coord_model := Some (coordinator_agent_pkl disk);
     url_vec := Some (url_vectorizer_pkl disk);
     email_vec := Some (email_vectorizer_pkl disk) |}.

(** Attribute access on a global that may still be [None]. *)
Definition getattr {A B : Type} (obj : option A) (method : A -> B) : result B :=
  match obj with
  | Some o => Ok (method o)
  | None => Raise AttributeError
  end.

(** [float(model.predict_proba(vec.transform([text]))[0][1])], evaluated in
    Python's order: the callee's attribute, then the argument, then the call
    and the two subscripts. *)
Definition positive_proba (model : option Classifier) (vec : option Vectorizer)
    (text : str) : result float :=
  predict <- getattr model predict_proba ;;
  vectorize <- getattr vec transform ;;
  X <- vectorize [text] ;;
  proba <- predict X ;;
  row <- getitem proba 0 ;;
  getitem row 1.

(** ** Request schemas and endpoints *)

Record URLRequest : Set := { url : str }.
Record EmailRequest : Set := { content : str }.
Record CombinedRequest : Set := { combined_url : str; combined_content : str }.

Definition scan_url (g : Globals) (w : World) (data : URLRequest) : result dict :=
  url_ml <- positive_proba (url_model g) (url_vec g) (url data) ;;
  info <- extract_domain_info w (url data) ;;
  domain_rule <- rule_score info ;;
  let blended := ((URL_BLEND * url_ml) + ((1 - URL_BLEND) * domain_rule))%float in
  Ok [ ("ml_score"%string, PyFloat url_ml);
       ("domain_score"%string, PyFloat domain_rule);
       ("blended_score"%string, PyFloat blended);
       ("risk"%string, PyStr (risk_level blended));
       ("phishing"%string, PyBool (0.5 <=? blended)%float) ].

Definition scan_email (g : Globals) (w : World) (data : EmailRequest) : result dict :=
  email_prob <- positive_proba (email_model g) (email_vec g) (content data) ;;
  Ok [ ("probability"%string, PyFloat email_prob);
       ("risk"%string, PyStr (risk_level email_prob));
       ("phishing"%string, PyBool (0.5 <=? email_prob)%float) ].

(** [np.array([[url_ml, email_prob, 1, 1]])]: the two ints become [1.0]. *)
Definition X_meta (url_ml email_prob : float) : Matrix :=
  [[url_ml; email_prob; 1%float; 1%float]].

Definition scan_combined (g : Globals) (w : World) (data : CombinedRequest) : result dict :=
  url_ml <- positive_proba (url_model g) (url_vec g) (combined_url data) ;;
  email_prob <- positive_proba (email_model g) (email_vec g) (combined_content data) ;;
  predict <- getattr (coord_model g) predict_proba ;;
  proba <- predict (X_meta url_ml email_prob) ;;
  row <- getitem proba 0 ;;
  final_prob <- getitem row 1 ;;
  Ok [ ("final_probability"%string, PyFloat final_prob);
       ("risk"%string, PyStr (risk_level final_prob));
       ("phishing"%string, PyBool (0.5 <=? final_prob)%float) ].

(** Whether [json.dumps(v, allow_nan=False)] accepts a value: NaN and the
    two infinities are refused with ValueError. *)
Fixpoint json_compliant (v : PyValue) : bool :=
  match v with
  | PyFloat f => is_finite f
  | PyList l => forallb json_compliant l
  | _ => true
  end.

(** The status the framework answers with.  A handler that raises gives 500
    (the module registers no exception handler and raises no HTTPException).
    A dict that the handler returns is rendered by the framework's
    JSONResponse, which calls [json.dumps] with [allow_nan=False]: a NaN or
    an infinity in the dict raises ValueError there, and the answer is 500
    as well.  Otherwise the answer is 200. *)
Definition status_code (r : result dict) : Z :=
  match r with
  | Ok d => if forallb (fun kv => json_compliant (snd kv)) d then 200 else 500
  | Raise _ => 500
  end.

(** ** The order of binary64 values

    [SFcompare] orders two floats by sign class, then exponent, then
    mantissa.  [SFrank] names that key, so that facts about [<?] and [<=?]
    reduce to linear arithmetic over three integers. *)

Definition SFrank (x : spec_float) : option (Z * Z * Z) :=
  match x with
  | S754_nan => None
  | S754_infinity true => Some (-2, 0, 0)
  | S754_infinity false => Some (2, 0, 0)
  | S754_zero _ => Some (0, 0, 0)
  | S754_finite true m e => Some (-1, - e, - Zpos m)
  | S754_finite false m e => Some (1, e, Zpos m)
  end.

Definition lex_lt (a b : Z * Z * Z) : Prop :=
  let '(a1, a2, a3) := a in
  let '(b1, b2, b3) := b in
  a1 < b1 \/ (a1 = b1 /\ (a2 < b2 \/ (a2 = b2 /\ a3 < b3))).

Definition lex_le (a b : Z * Z * Z) : Prop := lex_lt a b \/ a = b.

Definition ranked (R : Z * Z * Z -> Z * Z * Z -> Prop) (x y : spec_float) : Prop :=
  match SFrank x, SFrank y with
  | Some a, Some b => R a b
  | _, _ => False
  end.

Definition float_lt (x y : float) : Prop := ranked lex_lt (Prim2SF x) (Prim2SF y).
Definition float_le (x y : float) : Prop := ranked lex_le (Prim2SF x) (Prim2SF y).

(** ** The rule score, as the specification words it *)

Definition conditions (info : Info) : list bool :=
  [ match age info with Some a => a <? 30 | None => false end;
    negb (dns info);
    negb (ssl info);
    (3.5 <? entropy info)%float ].

Definition count_true (l : list bool) : Z := Z.of_nat (List.length (filter id l)).

(** ** Sample deployments, used to run the endpoints on concrete requests *)

(** A stand-in for the C library's [log2]: exact on powers of two, linear
    in between. *)
Definition sample_log2 (x : float) : float :=
  let (m, e) := frshiftexp x in
  ((of_uint63 e - 2101 - 1) + (2 * m - 1))%float.

(** The distinct characters, each at the place of its last occurrence. *)
Definition sample_set_iter (s : str) : list codepoint := nodup N.eq_dec s.

Definition sample_clock_us : Z := 1793793600000000.

Definition sample_now : datetime :=
  {| timestamp_us := sample_clock_us; tz_aware := false |}.

(** No network: every probe fails, and the URL has no authority and no
    registrable domain (as for ["not-a-url"]). *)
Definition offline_world : World :=
  {| libm_log2 := sample_log2;
     set_iter := sample_set_iter;
     urlparse_netloc := fun _ => Ok [];
     registered_domain := fun _ => [];
     clock_us := sample_clock_us;
     whois_creation_date := fun _ => Raise (LibraryError "PywhoisError");
     dns_resolve := fun _ => Raise (LibraryError "NXDOMAIN");
     tls_handshake := fun _ => Raise OSError |}.

(** A domain registered five days ago that neither resolves nor answers on
    port 443; WHOIS returns a list of dates. *)
Definition young_domain_world : World :=
  {| libm_log2 := sample_log2;
     set_iter := sample_set_iter;
     urlparse_netloc := fun _ => Ok (lit "login.z.xyz");
     registered_domain := fun _ => lit "z.xyz";
     clock_us := sample_clock_us;
     whois_creation_date := fun _ =>
       Ok (PyList [PyDatetime {| timestamp_us := 1793793600000000 - 5 * 86400000000 - 1;
                                 tz_aware := false |};
                   PyDatetime sample_now]);
     dns_resolve := fun _ => Raise (LibraryError "NXDOMAIN");
     tls_handshake := fun _ => Raise OSError |}.

(** An established domain: every probe succeeds. *)
Definition healthy_world : World :=
  {| libm_log2 := sample_log2;
     set_iter := sample_set_iter;
     urlparse_netloc := fun _ => Ok (lit "www.python.org");
     registered_domain := fun _ => lit "python.org";
     clock_us := sample_clock_us;
     whois_creation_date := fun _ =>
       Ok (PyDatetime {| timestamp_us := 796000000000000; tz_aware := false |});
     dns_resolve := fun _ => Ok tt;
     tls_handshake := fun _ => Ok tt |}.

(** A classifier that answers [p] for the positive class, whatever the input. *)
Definition constant_classifier (p : float) : Classifier :=
  {| predict_proba := fun _ => Ok [[(1 - p)%float; p]] |}.

Definition sample_vectorizer : Vectorizer :=
  {| transform := fun docs => Ok (map (fun doc => [float_of_int (len doc)]) docs) |}.

(** A coordinator that averages the first two columns of its only row, and
    refuses a matrix of another shape. *)
Definition averaging_coordinator : Classifier :=
  {| predict_proba := fun X =>
       match X with
       | [[a; b; _; _]] => let p := ((a + b) / 2)%float in Ok [[(1 - p)%float; p]]
       | _ => Raise ValueError
       end |}.

Definition sample_pickles (url_p email_p : float) : Pickles :=
  {| url_agent_pkl := constant_classifier url_p;
     email_agent_pkl := constant_classifier email_p;
     coordinator_agent_pkl := averaging_coordinator;
     url_vectorizer_pkl := sample_vectorizer;
     email_vectorizer_pkl := sample_vectorizer |}.

Definition sample_globals (url_p email_p : float) : Globals :=
  load_models (sample_pickles url_p email_p) initial_globals.

(** ** Auxiliary definitions for the statements below *)

(** The exponent of the binary64 format at a given magnitude. *)
Definition fexp64 (e : Z) : Z := fexp prec emax e.

(** [c * n]: the string of [n] copies of the character [c]. *)
Fixpoint repeat_char (c : codepoint) (n : nat) : str :=
  match n with
  | O => []
  | S n' => c :: repeat_char c n'
  end.

(** The date [extract_domain_info] reads out of a WHOIS answer, if any: the
    value itself, or the first element of a list. *)
Definition creation_datetime (v : PyValue) : option datetime :=
  match v with
  | PyDatetime d => Some d
  | PyList (PyDatetime d :: _) => Some d
  | _ => None
  end.

(** The part of a shift record that tells whether bits were cut off. *)
Definition lost (mrs : shr_record) : bool := shr_r mrs || shr_s mrs.

(** The scaled value [m * 2 ^ (e + 2200)] of a mantissa and an exponent: an
    integer for every exponent that binary64 arithmetic produces. *)
Definition scaled (m e : Z) : Z := m * 2 ^ (e + 2200).

(** [r] is a zero or a positive double whose scaled value is at most [bound]. *)
Definition nonneg_below (bound : Z) (r : spec_float) : Prop :=
  match r with
  | S754_zero _ => True
  | S754_finite false m e => scaled (Zpos m) e <= bound
  | _ => False
  end.

(** The double 1.0. *)
Definition one64 : spec_float := S754_finite false 4503599627370496 (-52).

(** The tiers in their order: LOW < MEDIUM < HIGH. *)
Definition risk_rank (label : string) : Z :=
  if String.eqb label "LOW" then 0
  else if String.eqb label "MEDIUM" then 1
  else 2.

(** [r] is a positive double whose scaled value is at least [bound], or
    +infinity. *)
Definition at_least (bound : Z) (r : spec_float) : Prop :=
  match r with
  | S754_finite false m e => bound <= scaled (Zpos m) e
  | S754_infinity false => True
  | _ => False
  end.

(** The URL [http://[::1]: urlsplit finds an opening bracket without its
    closing one in the authority and raises ValueError (Invalid IPv6 URL).
    Every probe would succeed. *)
Definition bracket_world : World :=
  {| libm_log2 := sample_log2;
     set_iter := sample_set_iter;
     urlparse_netloc := fun _ => Raise ValueError;
     registered_domain := fun _ => lit "python.org";
     clock_us := sample_clock_us;
     whois_creation_date := fun _ =>
       Ok (PyDatetime {| timestamp_us := 796000000000000; tz_aware := false |});
     dns_resolve := fun _ => Ok tt;
     tls_handshake := fun _ => Ok tt |}.

(** The C library's [log2] at the two probabilities of the label google,
    2/6 and 1/6 as doubles (the values glibc returns); the stand-in
    elsewhere. *)
Definition glibc_log2 (x : float) : float :=
  if (x =? 0.3333333333333333)%float then (-1.5849625007211563)%float
  else if (x =? 0.16666666666666666)%float then (-2.584962500721156)%float
  else sample_log2 x.

(** Two interpreter processes on the same machine that differ in the hash
    seed only.  On the label google the set of characters is yielded as
    o, g, l, e by the first (CPython 3.11 with PYTHONHASHSEED=21) and as
    e, l, g, o by the second (PYTHONHASHSEED=11); on other strings the two
    orders below are stand-ins. *)
Definition process_seed_21 : World :=
  {| libm_log2 := glibc_log2;
     set_iter := sample_set_iter;
     urlparse_netloc := fun _ => Ok (lit "www.google.com");
     registered_domain := fun _ => lit "google.com";
     clock_us := sample_clock_us;
     whois_creation_date := fun _ =>
       Ok (PyDatetime {| timestamp_us := 796000000000000; tz_aware := false |});
     dns_resolve := fun _ => Ok tt;
     tls_handshake := fun _ => Ok tt |}.

Definition process_seed_11 : World :=
  {| libm_log2 := glibc_log2;
     set_iter := fun s => rev (sample_set_iter s);
     urlparse_netloc := fun _ => Ok (lit "www.google.com");
     registered_domain := fun _ => lit "google.com";
     clock_us := sample_clock_us;
     whois_creation_date := fun _ =>
       Ok (PyDatetime {| timestamp_us := 796000000000000; tz_aware := false |});
     dns_resolve := fun _ => Ok tt;
     tls_handshake := fun _ => Ok tt |}.

(** An established domain with a one-letter label: every probe succeeds. *)
Definition short_domain_world : World :=
  {| libm_log2 := sample_log2;
     set_iter := sample_set_iter;
     urlparse_netloc := fun _ => Ok (lit "t.co");
     registered_domain := fun _ => lit "t.co";
     clock_us := sample_clock_us;
     whois_creation_date := fun _ =>
       Ok (PyDatetime {| timestamp_us := 796000000000000; tz_aware := false |});
     dns_resolve := fun _ => Ok tt;
     tls_handshake := fun _ => Ok tt |}.

(** * Proofs *)

(** ** The result monad *)

Lemma bind_Ok_inv {A B : Type} (r : result A) (k : A -> result B) (b : B) :
  bind r k = Ok b -> exists a, r = Ok a /\ k a = Ok b.
Proof.
  destruct r as [a | e]; cbn; intros H; [exists a; auto | discriminate].
Qed.

Lemma bind_Ok {A B : Type} (r : result A) (k : A -> result B) (a : A) :
  r = Ok a -> bind r k = k a.
Proof. intros ->. reflexivity. Qed.

Lemma bind_Raise {A B : Type} (r : result A) (k : A -> result B) (e : exn) :
  r = Raise e -> bind r k = Raise e.
Proof. intros ->. reflexivity. Qed.

(** ** Comparisons of binary64 values *)

Ltac rank_cases :=
  unfold ranked, lex_le, lex_lt in *;
  repeat match goal with
         | |- context [SFrank ?x] => destruct (SFrank x) as [[[? ?] ?] |]
         | H : context [SFrank ?x] |- _ => destruct (SFrank x) as [[[? ?] ?] |]
         end.

Ltac rank_leaf :=
  repeat match goal with
         | H : (_, _) = (_, _) |- _ => injection H as H
         end;
  subst; lia.

Ltac rank_solve :=
  rank_cases;
  repeat match goal with
         | H : _ /\ _ |- _ => destruct H
         | H : Some _ = Some _ |- _ => injection H as H
         | H : (_, _) = (_, _) |- _ => injection H as H
         end;
  subst;
  solve [tauto | discriminate | congruence | lia
        | intuition (discriminate || congruence || lia || rank_leaf)].

Lemma SFcompare_rank (x y : spec_float) :
  match SFcompare x y with
  | Some Lt => ranked lex_lt x y
  | Some Gt => ranked lex_lt y x
  | Some Eq => SFrank x = SFrank y /\ SFrank x <> None
  | None => SFrank x = None \/ SFrank y = None
  end.
Proof.
  destruct x as [sx | sx | | sx mx ex], y as [sy | sy | | sy my ey];
    try destruct sx; try destruct sy; cbn; unfold ranked; cbn;
    try lia; try (split; [reflexivity | discriminate]); auto.
  - destruct (Z.compare_spec ex ey); try lia.
    change (Pos.compare_cont Eq mx my) with (Pos.compare mx my).
    destruct (Pos.compare_spec mx my); cbn; subst; try lia.
    split; [reflexivity | discriminate].
  - destruct (Z.compare_spec ex ey); try lia.
    change (Pos.compare_cont Eq mx my) with (Pos.compare mx my).
    destruct (Pos.compare_spec mx my); cbn; subst; try lia.
    split; [reflexivity | discriminate].
Qed.

Lemma SFltb_ranked (x y : spec_float) : SFltb x y = true <-> ranked lex_lt x y.
Proof.
  unfold SFltb. pose proof (SFcompare_rank x y) as H.
  destruct (SFcompare x y) as [[| |] |]; split; intros K;
    try discriminate; try reflexivity; auto; exfalso; rank_solve.
Qed.

Lemma SFleb_ranked (x y : spec_float) : SFleb x y = true <-> ranked lex_le x y.
Proof.
  unfold SFleb. pose proof (SFcompare_rank x y) as H.
  destruct (SFcompare x y) as [[| |] |]; split; intros K;
    try discriminate; try reflexivity; auto; first [rank_solve | exfalso; rank_solve].
Qed.

Lemma ltb_float_lt (x y : float) : (x <? y)%float = true <-> float_lt x y.
Proof. rewrite FloatAxioms.ltb_spec. apply SFltb_ranked. Qed.

Lemma leb_float_le (x y : float) : (x <=? y)%float = true <-> float_le x y.
Proof. rewrite FloatAxioms.leb_spec. apply SFleb_ranked. Qed.

Lemma float_lt_trans (x y z : float) : float_lt x y -> float_lt y z -> float_lt x z.
Proof. unfold float_lt. intros. rank_solve. Qed.

Lemma float_le_lt_trans (x y z : float) : float_le x y -> float_lt y z -> float_lt x z.
Proof. unfold float_lt, float_le. intros. rank_solve. Qed.

Lemma float_lt_le_trans (x y z : float) : float_lt x y -> float_le y z -> float_lt x z.
Proof. unfold float_lt, float_le. intros. rank_solve. Qed.

Lemma float_le_trans (x y z : float) : float_le x y -> float_le y z -> float_le x z.
Proof. unfold float_le. intros. rank_solve. Qed.

Lemma float_lt_not_le (x y : float) : float_lt x y -> ~ float_le y x.
Proof. unfold float_lt, float_le. intros H K. rank_solve. Qed.

Lemma ltb_false_of_leb (a x : float) : (a <=? x)%float = true -> (x <? a)%float = false.
Proof.
  intros H. apply leb_float_le in H.
  destruct (x <? a)%float eqn:K; [| reflexivity].
  apply ltb_float_lt in K. exfalso. exact (float_lt_not_le _ _ K H).
Qed.

Lemma ltb_false_above (a b x : float) :
  (a <? b)%float = true -> (b <=? x)%float = true -> (x <? a)%float = false.
Proof.
  intros Hab Hbx. apply ltb_float_lt in Hab. apply leb_float_le in Hbx.
  destruct (x <? a)%float eqn:K; [| reflexivity].
  apply ltb_float_lt in K. exfalso.
  exact (float_lt_not_le _ _ (float_lt_trans _ _ _ K Hab) Hbx).
Qed.

Lemma ltb_of_leb_ltb (x y c : float) :
  (x <=? y)%float = true -> (y <? c)%float = true -> (x <? c)%float = true.
Proof.
  intros H K. apply leb_float_le in H. apply ltb_float_lt in K.
  apply ltb_float_lt. exact (float_le_lt_trans _ _ _ H K).
Qed.

Lemma SFleb_finite_iff (m m' : positive) (e e' : Z) :
  SFleb (S754_finite false m e) (S754_finite false m' e') = true <->
  e < e' \/ (e = e' /\ Zpos m <= Zpos m').
Proof.
  rewrite SFleb_ranked. unfold ranked, lex_le, lex_lt. cbn [SFrank].
  split.
  - intros [H | H]; [lia | injection H as -> ->; lia].
  - intros [H | [-> H]]; [left; lia |].
    destruct (Z.eq_dec (Zpos m) (Zpos m')) as [E | N].
    + right. injection E as ->. reflexivity.
    + left. lia.
Qed.

(** ** Rounding to binary64: digits and shifts *)

Lemma digits2_pos_size (p : positive) : digits2_pos p = Pos.size p.
Proof. induction p; cbn; congruence. Qed.

Lemma Zdigits2_log2 (z : Z) : 0 < z -> Zdigits2 z = Z.log2 z + 1.
Proof.
  destruct z as [| p | p]; try lia. intros _. cbn [Zdigits2].
  rewrite digits2_pos_size. destruct p; cbn; lia.
Qed.

Lemma Zdigits2_le (a b : Z) : 0 < a -> a <= b -> Zdigits2 a <= Zdigits2 b.
Proof.
  intros Ha Hab. rewrite !Zdigits2_log2 by lia.
  pose proof (Z.log2_le_mono a b Hab). lia.
Qed.

Lemma Zdigits2_succ_le (a : Z) : 0 < a -> Zdigits2 (a + 1) <= Zdigits2 a + 1.
Proof.
  intros Ha. rewrite !Zdigits2_log2 by lia.
  pose proof (Z.log2_succ_le a). unfold Z.succ in *. lia.
Qed.

Lemma Zdigits2_gt (a : Z) : 0 < a -> a < 2 ^ Zdigits2 a.
Proof.
  intros Ha. rewrite Zdigits2_log2 by lia.
  pose proof (Z.log2_spec a Ha). unfold Z.succ in *. lia.
Qed.

Lemma pow2_pos (a : Z) : 0 <= a -> 0 < 2 ^ a.
Proof. intros. apply Z.pow_pos_nonneg; lia. Qed.

Lemma shr_m_shr_1 (mrs : shr_record) :
  0 <= shr_m mrs -> shr_m (shr_1 mrs) = Z.div2 (shr_m mrs).
Proof.
  destruct mrs as [m r s]. cbn. destruct m as [| [p | p |] | p]; cbn; intros; try reflexivity; lia.
Qed.

Lemma shr_m_iter_pos (n : positive) : forall mrs : shr_record,
  0 <= shr_m mrs -> shr_m (iter_pos shr_1 n mrs) = Z.shiftr (shr_m mrs) (Zpos n).
Proof.
  assert (D : forall a, Z.div2 a = Z.shiftr a 1) by (intros; apply Z.div2_spec).
  induction n as [n IH | n IH |]; intros mrs Hm; cbn [iter_pos].
  - assert (H1 : 0 <= shr_m (shr_1 mrs)).
    { rewrite shr_m_shr_1, D by assumption. apply Z.shiftr_nonneg. assumption. }
    assert (H2 : 0 <= shr_m (iter_pos shr_1 n (shr_1 mrs))).
    { rewrite IH by assumption. apply Z.shiftr_nonneg. assumption. }
    rewrite IH, IH, shr_m_shr_1, D by assumption.
    rewrite !Z.shiftr_shiftr by lia. f_equal. lia.
  - assert (H2 : 0 <= shr_m (iter_pos shr_1 n mrs)).
    { rewrite IH by assumption. apply Z.shiftr_nonneg. assumption. }
    rewrite IH, IH by assumption.
    rewrite !Z.shiftr_shiftr by lia. f_equal. lia.
  - rewrite shr_m_shr_1, D by assumption. reflexivity.
Qed.

Lemma shr_m_of_loc (m : Z) (l : location) : shr_m (shr_record_of_loc m l) = m.
Proof. destruct l as [| []]; reflexivity. Qed.

Lemma fexp64_eq (e : Z) : fexp64 e = Z.max (e - 53) (-1074).
Proof. reflexivity. Qed.

Lemma shr_fexp_pos (m e : Z) (l : location) :
  0 < m -> -1074 < Zdigits2 m + e ->
  0 < shr_m (fst (shr_fexp prec emax m e l)) /\
  Zdigits2 (shr_m (fst (shr_fexp prec emax m e l))) + snd (shr_fexp prec emax m e l)
    = Zdigits2 m + e /\
  snd (shr_fexp prec emax m e l) = Z.max e (fexp64 (Zdigits2 m + e)).
Proof.
  intros Hm Hd. unfold shr_fexp, shr.
  change (fexp prec emax) with fexp64. rewrite fexp64_eq.
  destruct (Z.max (Zdigits2 m + e - 53) (-1074) - e) as [| n | n] eqn:Hn; cbn [fst snd];
    rewrite ?shr_m_of_loc; try (repeat split; lia).
  rewrite shr_m_iter_pos by (rewrite shr_m_of_loc; lia).
  rewrite shr_m_of_loc.
  rewrite (Zdigits2_log2 m Hm) in *.
  assert (Hs : 0 < Z.shiftr m (Z.pos n)).
  { pose proof (Z.shiftr_nonneg m (Z.pos n)) as N.
    assert (Z.shiftr m (Z.pos n) <> 0).
    { intros K. apply Z.shiftr_eq_0_iff in K. lia. }
    lia. }
  split; [assumption |]. split; [| lia].
  rewrite Zdigits2_log2 by assumption.
  rewrite Z.log2_shiftr by assumption. lia.
Qed.

Lemma round_nearest_even_bounds (m : Z) (l : location) :
  m <= round_nearest_even m l <= m + 1.
Proof.
  destruct l as [| []]; cbn; try lia. destruct (Z.even m); lia.
Qed.

(** Rounding a positive mantissa above the underflow threshold gives a
    positive float of the same or the next binade, or +infinity. *)
Lemma binary_round_aux_pos (s : bool) (m e : Z) (l : location) :
  0 < m -> -1074 < Zdigits2 m + e ->
  exists (m' : positive) (e' : Z),
    binary_round_aux prec emax s m e l =
      (if e' <=? 971 then S754_finite s m' e' else S754_infinity s) /\
    Zdigits2 m + e <= Zdigits2 (Zpos m') + e' <= Zdigits2 m + e + 1 /\
    e' <= Z.max e (fexp64 (Zdigits2 m + e + 1)).
Proof.
  intros Hm Hd. unfold binary_round_aux.
  pose proof (shr_fexp_pos m e l Hm Hd) as (H1 & H2 & H3).
  destruct (shr_fexp prec emax m e l) as [mrs1 e1]. cbn [fst snd] in *.
  pose proof (round_nearest_even_bounds (shr_m mrs1) (loc_of_shr_record mrs1)) as Hr.
  set (m2 := round_nearest_even (shr_m mrs1) (loc_of_shr_record mrs1)) in *.
  assert (Hm2 : 0 < m2) by lia.
  assert (Hd2 : Zdigits2 (shr_m mrs1) <= Zdigits2 m2 <= Zdigits2 (shr_m mrs1) + 1).
  { split; [apply Zdigits2_le; lia |].
    etransitivity; [apply (Zdigits2_le m2 (shr_m mrs1 + 1)); lia |].
    apply Zdigits2_succ_le; lia. }
  pose proof (shr_fexp_pos m2 e1 loc_Exact Hm2 ltac:(lia)) as (K1 & K2 & K3).
  destruct (shr_fexp prec emax m2 e1 loc_Exact) as [mrs2 e2]. cbn [fst snd] in *.
  destruct (shr_m mrs2) as [| m' | m'] eqn:Hm'; try lia.
  exists m', e2. split; [reflexivity |].
  rewrite fexp64_eq in *. lia.
Qed.

Lemma digits2_pos_iter_xO (d m : positive) :
  Zpos (digits2_pos (Pos.iter xO m d)) = Zpos (digits2_pos m) + Zpos d.
Proof.
  induction d as [| d IH] using Pos.peano_ind.
  - cbn. lia.
  - rewrite Pos.iter_succ. cbn [digits2_pos]. lia.
Qed.

Lemma shl_align_digits (mx : positive) (ex ex' : Z) :
  Zpos (digits2_pos (fst (shl_align mx ex ex'))) + snd (shl_align mx ex ex')
    = Zpos (digits2_pos mx) + ex /\
  snd (shl_align mx ex ex') <= ex.
Proof.
  unfold shl_align. destruct (ex' - ex) as [| d | d] eqn:E; cbn [fst snd]; try lia.
  rewrite digits2_pos_iter_xO. lia.
Qed.

Lemma valid_binary_digits (s : bool) (m : positive) (e : Z) :
  valid_binary (S754_finite s m e) = true -> Zpos (digits2_pos m) <= 53.
Proof.
  cbn. unfold bounded, canonical_mantissa. intros H.
  apply andb_prop in H as [H _]. apply Z.eqb_eq in H.
  change (fexp prec emax) with fexp64 in H. rewrite fexp64_eq in H. lia.
Qed.

Lemma valid_binary_exponent (s : bool) (m : positive) (e : Z) :
  valid_binary (S754_finite s m e) = true ->
  -1074 <= e <= 971 /\ (-1074 < e -> Zpos (digits2_pos m) = 53).
Proof.
  cbn. unfold bounded, canonical_mantissa. intros H.
  apply andb_prop in H as [H K]. apply Z.eqb_eq in H. apply Z.leb_le in K.
  change (fexp prec emax) with fexp64 in H. rewrite fexp64_eq in H.
  change (emax - prec) with 971 in K. lia.
Qed.

Lemma mantissa_lt_pow53 (s : bool) (m : positive) (e : Z) :
  valid_binary (S754_finite s m e) = true -> Zpos m < 2 ^ 53.
Proof.
  intros V. pose proof (valid_binary_digits _ _ _ V) as D.
  pose proof (Zdigits2_gt (Zpos m) ltac:(lia)) as G. cbn [Zdigits2] in G.
  assert (2 ^ Zpos (digits2_pos m) <= 2 ^ 53) by (apply Z.pow_le_mono_r; lia).
  lia.
Qed.

(** Between canonical positive doubles, the order of the values is the order
    that [SFleb] computes. *)
Lemma mantissa_ge_pow52 (s : bool) (m : positive) (e : Z) :
  valid_binary (S754_finite s m e) = true -> -1074 < e -> 2 ^ 52 <= Zpos m.
Proof.
  intros V He. destruct (valid_binary_exponent _ _ _ V) as (_ & D). specialize (D He).
  change (Zpos (digits2_pos m)) with (Zdigits2 (Zpos m)) in D.
  rewrite Zdigits2_log2 in D by lia.
  pose proof (Z.log2_spec (Zpos m) ltac:(lia)) as [L _].
  replace (Z.log2 (Zpos m)) with 52 in L by lia. exact L.
Qed.

(** ** Lengths and counts as doubles, and their quotients *)

(** [float(n)] of a positive length or count is a positive finite double
    whose binade is that of [n] or the next one. *)
Lemma Prim2SF_of_pos_int (n : Z) :
  0 < n <= 9223372036854775807 ->
  exists (m : positive) (e : Z),
    Prim2SF (of_uint63 (Uint63.of_Z n)) = S754_finite false m e /\
    1 <= Zpos (digits2_pos m) + e <= 64.
Proof.
  intros Hn. rewrite of_uint63_spec, Uint63.of_Z_spec.
  rewrite Z.mod_small by (change wB with 9223372036854775808; lia).
  destruct n as [| p | p]; try lia. cbn [binary_normalize]. unfold binary_round.
  pose proof (shl_align_digits p 0 (fexp prec emax (Zpos (digits2_pos p) + 0))) as (A1 & A2).
  destruct (shl_align p 0 (fexp prec emax (Zpos (digits2_pos p) + 0))) as [mz ez].
  cbn [fst snd] in *.
  assert (Hp : 1 <= Zpos (digits2_pos p) <= 63).
  { change (Zpos (digits2_pos p)) with (Zdigits2 (Zpos p)).
    rewrite Zdigits2_log2 by lia.
    pose proof (Z.log2_nonneg (Zpos p)).
    assert (Z.log2 (Zpos p) < 63); [| lia].
    apply Z.log2_lt_pow2; lia. }
  destruct (binary_round_aux_pos false (Zpos mz) ez loc_Exact) as (m' & e' & R & D & E);
    [lia | cbn [Zdigits2]; lia |].
  cbn [Zdigits2] in *. rewrite fexp64_eq in E.
  exists m', e'. rewrite R.
  replace (e' <=? 971) with true by (symmetry; apply Z.leb_le; lia).
  split; [reflexivity | lia].
Qed.

(** A finite nonzero double divided by itself is exactly 1.0. *)
Lemma SFdiv_self (s : bool) (m : positive) (e : Z) :
  SFdiv prec emax (S754_finite s m e) (S754_finite s m e) = Prim2SF 1.
Proof.
  unfold SFdiv, SFdiv_core_binary.
  rewrite Z.sub_diag, Z.sub_diag.
  change (Z.min (fexp prec emax 0) 0) with (-53).
  change (0 - -53) with 53.
  cbv iota beta.
  assert (Z.div_eucl (Z.shiftl (Zpos m) 53) (Zpos m) = (2 ^ 53, 0)) as ->.
  { rewrite Z.shiftl_mul_pow2 by lia.
    rewrite Z.mul_comm.
    pose proof (Z.div_mul (2 ^ 53) (Zpos m) ltac:(lia)) as Q.
    pose proof (Z.mod_mul (2 ^ 53) (Zpos m) ltac:(lia)) as R.
    unfold Z.div, Z.modulo in Q, R.
    destruct (Z.div_eucl (2 ^ 53 * Zpos m) (Zpos m)) as [q r]. congruence. }
  assert (new_location (Zpos m) 0 = loc_Exact) as ->.
  { unfold new_location, new_location_even, new_location_odd.
    destruct (Z.even (Zpos m)); reflexivity. }
  destruct s; reflexivity.
Qed.

(** The quotient of two positive doubles that lie between 1 and 2^64 does
    not underflow to zero. *)
Lemma SFdiv_pos (mx my : positive) (ex ey : Z) :
  Zpos (digits2_pos mx) <= 53 ->
  1 <= Zpos (digits2_pos mx) + ex <= 64 ->
  1 <= Zpos (digits2_pos my) + ey <= 64 ->
  exists (m' : positive) (e' : Z),
    SFdiv prec emax (S754_finite false mx ex) (S754_finite false my ey) =
      (if e' <=? 971 then S754_finite false m' e' else S754_infinity false).
Proof.
  intros Hc Hx Hy. unfold SFdiv, SFdiv_core_binary. cbn [Zdigits2 xorb].
  set (d1 := Zpos (digits2_pos mx)) in *. set (d2 := Zpos (digits2_pos my)) in *.
  change (fexp prec emax) with fexp64. rewrite fexp64_eq.
  set (e' := Z.min (Z.max (d1 + ex - (d2 + ey) - 53) (-1074)) (ex - ey)).
  assert (Hd2 : 1 <= d2) by (unfold d2; lia).
  assert (He' : -1074 < e' + 1) by (unfold e'; lia).
  assert (Hs : d2 <= ex - ey - e') by (unfold e'; lia).
  destruct (ex - ey - e') as [| sh | sh] eqn:Esh; try lia.
  set (q := fst (Z.div_eucl (Z.shiftl (Zpos mx) (Zpos sh)) (Zpos my))).
  assert (Hq : 0 < q).
  { unfold q. change (fst (Z.div_eucl ?a ?b)) with (a / b).
    rewrite Z.shiftl_mul_pow2 by lia.
    apply Z.div_str_pos. split; [lia |].
    pose proof (Zdigits2_gt (Zpos my) ltac:(lia)) as G. cbn [Zdigits2] in G. fold d2 in G.
    assert (2 ^ d2 <= 2 ^ Zpos sh) by (apply Z.pow_le_mono_r; lia).
    assert (0 < 2 ^ Zpos sh) by (apply Z.pow_pos_nonneg; lia).
    nia. }
  destruct (Z.div_eucl (Z.shiftl (Zpos mx) (Zpos sh)) (Zpos my)) as [q' r] eqn:Ediv.
  cbn [fst] in q. subst q.
  destruct (binary_round_aux_pos false q' e' (new_location (Zpos my) r) Hq) as (m' & e'' & R & _).
  { assert (1 <= Zdigits2 q'); [| lia].
    rewrite Zdigits2_log2 by lia. pose proof (Z.log2_nonneg q'). lia. }
  exists m', e''. exact R.
Qed.

Lemma float_of_int_div_self (n : Z) :
  0 < n <= sys_maxsize -> (float_of_int n / float_of_int n)%float = 1%float.
Proof.
  intros Hn. destruct (Prim2SF_of_pos_int n Hn) as (m & e & H & _).
  apply Prim2SF_inj. unfold float_of_int. rewrite FloatAxioms.div_spec, H. apply SFdiv_self.
Qed.

Lemma float_of_int_div_positive (k n : Z) :
  0 < k <= sys_maxsize -> 0 < n <= sys_maxsize ->
  (float_of_int k / float_of_int n <=? 0)%float = false.
Proof.
  intros Hk Hn.
  destruct (Prim2SF_of_pos_int k Hk) as (mk & ek & Ek & Dk).
  destruct (Prim2SF_of_pos_int n Hn) as (mn & en & En & Dn).
  pose proof (Prim2SF_valid (of_uint63 (Uint63.of_Z k))) as V. rewrite Ek in V.
  apply valid_binary_digits in V.
  destruct (SFdiv_pos mk mn ek en V Dk Dn) as (m' & e' & R).
  unfold float_of_int. rewrite FloatAxioms.leb_spec, FloatAxioms.div_spec, Ek, En.
  unfold SF64div. rewrite R.
  destruct (e' <=? 971); reflexivity.
Qed.

(** ** Rounding never crosses a representable value *)

Lemma lost_shr_1 (mrs : shr_record) :
  0 <= shr_m mrs -> lost (shr_1 mrs) = lost mrs || Z.odd (shr_m mrs).
Proof.
  destruct mrs as [m r s]. unfold lost. cbn.
  destruct m as [| [p | p |] | p]; cbn; intros; try lia;
    destruct r, s; reflexivity.
Qed.

Lemma shr_1_inexact (mrs : shr_record) :
  0 <= shr_m mrs -> lost (shr_1 mrs) = true ->
  lost mrs = true \/ shr_m (shr_1 mrs) * 2 < shr_m mrs.
Proof.
  intros Hm. rewrite lost_shr_1, shr_m_shr_1 by assumption.
  intros H. apply orb_prop in H as [H | H]; [left; exact H | right].
  rewrite Z.div2_div. pose proof (Z.div_mod (shr_m mrs) 2 ltac:(lia)) as D.
  rewrite Zmod_odd, H in D. lia.
Qed.

Lemma shr_1_nonneg (mrs : shr_record) : 0 <= shr_m mrs -> 0 <= shr_m (shr_1 mrs).
Proof.
  intros H. rewrite shr_m_shr_1 by assumption. rewrite Z.div2_div.
  apply Z.div_pos; lia.
Qed.

Lemma shr_1_floor (mrs : shr_record) : 0 <= shr_m mrs -> shr_m (shr_1 mrs) * 2 <= shr_m mrs.
Proof.
  intros H. rewrite shr_m_shr_1 by assumption. rewrite Z.div2_div.
  pose proof (Z.mul_div_le (shr_m mrs) 2 ltac:(lia)). lia.
Qed.

(** After [n] right shifts: the mantissa is a floor, and a set round or
    sticky bit means that something was cut off. *)
Lemma iter_shr_1_spec (n : positive) : forall mrs : shr_record,
  0 <= shr_m mrs ->
  0 <= shr_m (iter_pos shr_1 n mrs) /\
  shr_m (iter_pos shr_1 n mrs) * 2 ^ Zpos n <= shr_m mrs /\
  (lost (iter_pos shr_1 n mrs) = true ->
   lost mrs = true \/ shr_m (iter_pos shr_1 n mrs) * 2 ^ Zpos n < shr_m mrs).
Proof.
  induction n as [n IH | n IH |]; intros mrs Hm; cbn [iter_pos].
  - pose proof (shr_1_nonneg mrs Hm) as N1.
    pose proof (shr_1_floor mrs Hm) as F1.
    pose proof (shr_1_inexact mrs Hm) as I1.
    destruct (IH (shr_1 mrs) N1) as (N2 & F2 & I2).
    destruct (IH (iter_pos shr_1 n (shr_1 mrs)) N2) as (N3 & F3 & I3).
    set (a := shr_m (shr_1 mrs)) in *.
    set (b := shr_m (iter_pos shr_1 n (shr_1 mrs))) in *.
    set (c := shr_m (iter_pos shr_1 n (iter_pos shr_1 n (shr_1 mrs)))) in *.
    replace (2 ^ Zpos n~1) with (2 ^ Zpos n * 2 ^ Zpos n * 2)
      by (rewrite Pos2Z.inj_xI, Z.pow_add_r, Z.pow_mul_r, Z.pow_2_r by lia;
          rewrite <- Z.pow_mul_l, <- Z.pow_2_r, <- Z.pow_mul_r by lia;
          change (2 ^ 1) with 2; rewrite (Z.pow_mul_r 2 2) by lia; reflexivity).
    assert (P : 0 < 2 ^ Zpos n) by (apply Z.pow_pos_nonneg; lia).
    split; [exact N3 |]. split; [nia |].
    intros L. destruct (I3 L) as [L2 | S3]; [destruct (I2 L2) as [L1 | S2] |].
    + destruct (I1 L1) as [L0 | S1]; [left; exact L0 | right; nia].
    + right; nia.
    + right; nia.
  - destruct (IH mrs Hm) as (N2 & F2 & I2).
    destruct (IH (iter_pos shr_1 n mrs) N2) as (N3 & F3 & I3).
    set (b := shr_m (iter_pos shr_1 n mrs)) in *.
    set (c := shr_m (iter_pos shr_1 n (iter_pos shr_1 n mrs))) in *.
    replace (2 ^ Zpos n~0) with (2 ^ Zpos n * 2 ^ Zpos n)
      by (rewrite Pos2Z.inj_xO, <- Z.pow_add_r by lia; f_equal; lia).
    assert (P : 0 < 2 ^ Zpos n) by (apply Z.pow_pos_nonneg; lia).
    split; [exact N3 |]. split; [nia |].
    intros L. destruct (I3 L) as [L2 | S3]; [destruct (I2 L2) as [L1 | S2] |].
    + left; exact L1.
    + right; nia.
    + right; nia.
  - change (2 ^ 1) with 2.
    split; [apply shr_1_nonneg; exact Hm |].
    split; [apply shr_1_floor; exact Hm | apply shr_1_inexact; exact Hm].
Qed.

(** The shift to the format's exponent, on an exact input. *)
Lemma shr_fexp_exact (M E : Z) :
  0 <= M ->
  0 <= shr_m (fst (shr_fexp prec emax M E loc_Exact)) /\
  snd (shr_fexp prec emax M E loc_Exact) = Z.max E (fexp64 (Zdigits2 M + E)) /\
  shr_m (fst (shr_fexp prec emax M E loc_Exact))
    * 2 ^ (snd (shr_fexp prec emax M E loc_Exact) - E) <= M /\
  (lost (fst (shr_fexp prec emax M E loc_Exact)) = true ->
   E < snd (shr_fexp prec emax M E loc_Exact) /\
   shr_m (fst (shr_fexp prec emax M E loc_Exact))
     * 2 ^ (snd (shr_fexp prec emax M E loc_Exact) - E) < M) /\
  (E < snd (shr_fexp prec emax M E loc_Exact) ->
   shr_m (fst (shr_fexp prec emax M E loc_Exact)) =
     Z.shiftr M (snd (shr_fexp prec emax M E loc_Exact) - E)).
Proof.
  intros HM. unfold shr_fexp, shr. change (fexp prec emax) with fexp64.
  destruct (fexp64 (Zdigits2 M + E) - E) as [| n | n] eqn:Hn; cbn [fst snd].
  - replace (Z.max E (fexp64 (Zdigits2 M + E)) - E) with 0 by lia.
    cbn [shr_m shr_record_of_loc]. rewrite Z.sub_diag. cbn. repeat split; try lia; discriminate.
  - replace (E + Z.pos n - E) with (Z.pos n) by lia.
    destruct (iter_shr_1_spec n (shr_record_of_loc M loc_Exact) HM) as (N & F & I).
    cbn [shr_m shr_record_of_loc] in F, I.
    split; [exact N |]. split; [lia |]. split; [exact F |]. split.
    + intros L. split; [lia |]. destruct (I L) as [K | K]; [discriminate | exact K].
    + intros _. apply shr_m_iter_pos. exact HM.
  - cbn [shr_m shr_record_of_loc]. rewrite Z.sub_diag. cbn.
    repeat split; try lia; discriminate.
Qed.

Lemma round_nearest_even_cases (mrs : shr_record) :
  round_nearest_even (shr_m mrs) (loc_of_shr_record mrs) = shr_m mrs \/
  (round_nearest_even (shr_m mrs) (loc_of_shr_record mrs) = shr_m mrs + 1 /\
   lost mrs = true).
Proof.
  destruct mrs as [m [] []]; cbn; auto.
  destruct (Z.even m); auto.
Qed.

(** A mantissa of [d] digits at exponent [e] has magnitude [d + e]. *)
Lemma magnitude_lt (m e x : Z) :
  0 < m -> 0 <= e + 2200 -> m * 2 ^ (e + 2200) < 2 ^ (x + 2200) -> Zdigits2 m + e <= x.
Proof.
  intros Hm He H. rewrite Zdigits2_log2 by assumption.
  pose proof (Z.log2_spec m Hm) as [L _]. pose proof (Z.log2_nonneg m) as N.
  assert (P : 0 < 2 ^ (e + 2200)) by (apply pow2_pos; lia).
  assert (Q : 2 ^ (Z.log2 m + (e + 2200)) < 2 ^ (x + 2200)).
  { rewrite Z.pow_add_r by lia. nia. }
  apply Z.pow_lt_mono_r_iff in Q; [lia | lia |].
  destruct (Z.le_gt_cases 0 (x + 2200)) as [G | G]; [exact G |].
  rewrite (Z.pow_neg_r 2 (x + 2200)) in H by lia. nia.
Qed.

Lemma scaled_shift (m e e' : Z) :
  -2200 <= e <= e' -> scaled m e' = m * 2 ^ (e' - e) * 2 ^ (e + 2200).
Proof.
  intros H. unfold scaled. replace (e' + 2200) with ((e' - e) + (e + 2200)) by lia.
  rewrite Z.pow_add_r by lia. lia.
Qed.

(** Rounding an exact positive value that does not exceed the double
    [(my, ey)] gives zero or a positive double that does not exceed it. *)
Lemma binary_round_aux_le (M E : Z) (my : positive) (ey : Z) :
  0 < M -> -2200 <= E ->
  valid_binary (S754_finite false my ey) = true -> ey <= 900 ->
  scaled M E <= scaled (Zpos my) ey ->
  binary_round_aux prec emax false M E loc_Exact = S754_zero false \/
  exists (m : positive) (e : Z),
    binary_round_aux prec emax false M E loc_Exact = S754_finite false m e /\
    scaled (Zpos m) e <= scaled (Zpos my) ey.
Proof.
  intros HM HE V Hey Hle.
  pose proof (valid_binary_exponent _ _ _ V) as (Vey & _).
  pose proof (mantissa_lt_pow53 _ _ _ V) as Vmy.
  unfold binary_round_aux.
  pose proof (shr_fexp_exact M E ltac:(lia)) as (N1 & E1 & F1 & I1 & S1).
  destruct (shr_fexp prec emax M E loc_Exact) as [mrs1 e1]. cbn [fst snd] in *.
  set (m1 := shr_m mrs1) in *.
  set (m2 := round_nearest_even m1 (loc_of_shr_record mrs1)).
  assert (He1 : E <= e1) by lia.
  (* the rounded mantissa, at exponent e1, still does not exceed y *)
  assert (H2 : 0 <= m2 /\ scaled m2 e1 <= scaled (Zpos my) ey).
  { destruct (round_nearest_even_cases mrs1) as [R | [R L]]; fold m1 in R; fold m2 in R.
    - rewrite R. split; [exact N1 |].
      rewrite (scaled_shift m1 E e1) by lia.
      assert (0 < 2 ^ (E + 2200)) by (apply pow2_pos; lia).
      unfold scaled in Hle |- *. nia.
    - rewrite R. split; [lia |].
      destruct (I1 L) as (Lt1 & In1). specialize (S1 Lt1).
      assert (P0 : 0 < 2 ^ (E + 2200)) by (apply pow2_pos; lia).
      assert (P1 : 0 < 2 ^ (e1 - E)) by (apply pow2_pos; lia).
      destruct (Z.le_gt_cases e1 ey) as [C | C].
      + (* y is a multiple of the unit 2^e1 *)
        assert (P2 : 0 < 2 ^ (ey - e1)) by (apply pow2_pos; lia).
        assert (X1 : scaled (m1 + 1) e1 = (m1 + 1) * 2 ^ (e1 - E) * 2 ^ (E + 2200))
          by (apply scaled_shift; lia).
        assert (X2 : scaled (Zpos my) ey =
                     Zpos my * (2 ^ (ey - e1) * 2 ^ (e1 - E)) * 2 ^ (E + 2200)).
        { rewrite (scaled_shift (Zpos my) E ey) by lia.
          rewrite <- Z.pow_add_r by lia. do 3 f_equal. lia. }
        rewrite X1, X2. rewrite X2 in Hle. unfold scaled in Hle.
        set (A := 2 ^ (E + 2200)) in *. set (B := 2 ^ (e1 - E)) in *.
        set (k := Zpos my * 2 ^ (ey - e1)).
        replace (Zpos my * (2 ^ (ey - e1) * B)) with (k * B) in * by (unfold k; ring).
        assert (M <= k * B) by nia.
        assert (m1 < k) by nia.
        nia.
      + (* y lies below the binade of the result: impossible *)
        exfalso.
        rewrite fexp64_eq in E1.
        assert (D : e1 = Zdigits2 M + E - 53) by lia.
        assert (G : 2 ^ 52 <= m1).
        { rewrite S1. 
          assert (Hs : 0 < Z.shiftr M (e1 - E)).
          { pose proof (Z.shiftr_nonneg M (e1 - E)).
            assert (Z.shiftr M (e1 - E) <> 0).
            { intros K. apply Z.shiftr_eq_0_iff in K.
              rewrite (Zdigits2_log2 M HM) in D. lia. }
            lia. }
          pose proof (Z.log2_spec _ Hs) as [L2 _].
          rewrite Z.log2_shiftr in L2 by lia.
          rewrite (Zdigits2_log2 M HM) in D.
          replace (Z.max 0 (Z.log2 M - (e1 - E))) with 52 in L2 by lia.
          exact L2. }
        rewrite (scaled_shift (Zpos my) ey ey) in Hle by lia.
        rewrite Z.sub_diag, Z.mul_1_r in Hle.
        assert (Q : scaled m1 e1 <= scaled M E).
        { rewrite (scaled_shift m1 E e1) by lia. unfold scaled. nia. }
        assert (Q2 : 2 ^ 53 * 2 ^ (ey + 2200) <= scaled m1 e1).
        { rewrite (scaled_shift m1 ey e1) by lia.
          assert (0 < 2 ^ (ey + 2200)) by (apply pow2_pos; lia).
          assert (2 ^ 1 <= 2 ^ (e1 - ey)) by (apply Z.pow_le_mono_r; lia).
          change (2 ^ 1) with 2 in *. change (2 ^ 53) with (2 ^ 52 * 2).
          apply Z.mul_le_mono_nonneg_r; [lia |].
          apply Z.mul_le_mono_nonneg; lia. }
        assert (0 < 2 ^ (ey + 2200)) by (apply pow2_pos; lia).
        nia. }
  destruct H2 as (N2 & H2).
  pose proof (shr_fexp_exact m2 e1 N2) as (N3 & E3 & F3 & _ & _).
  destruct (shr_fexp prec emax m2 e1 loc_Exact) as [mrs2 e2]. cbn [fst snd] in *.
  assert (He2 : e1 <= e2) by lia.
  assert (H3 : scaled (shr_m mrs2) e2 <= scaled (Zpos my) ey).
  { rewrite (scaled_shift (shr_m mrs2) e1 e2) by lia.
    assert (0 < 2 ^ (e1 + 2200)) by (apply pow2_pos; lia).
    unfold scaled in H2 |- *. nia. }
  destruct (shr_m mrs2) as [| m3 | m3] eqn:Hm3; [left; reflexivity | right | lia].
  assert (B : scaled (Zpos my) ey < 2 ^ (53 + ey + 2200)).
  { unfold scaled. replace (53 + ey + 2200) with (53 + (ey + 2200)) by lia.
    rewrite (Z.pow_add_r 2 53 (ey + 2200)) by lia.
    apply Z.mul_lt_mono_pos_r; [apply pow2_pos; lia | exact Vmy]. }
  assert (M2 : 0 < m2).
  { destruct (Z.eq_dec m2 0) as [Z0 | NZ]; [| lia].
    rewrite Z0 in F3. 
    assert (0 < 2 ^ (e2 - e1)) by (apply pow2_pos; lia). nia. }
  pose proof (magnitude_lt M E (53 + ey) HM ltac:(lia) ltac:(unfold scaled in *; lia)) as G1.
  pose proof (magnitude_lt m2 e1 (53 + ey) M2 ltac:(lia) ltac:(unfold scaled in *; lia)) as G2.
  assert (Hd : 1 <= Zdigits2 M).
  { rewrite Zdigits2_log2 by lia. pose proof (Z.log2_nonneg M). lia. }
  rewrite fexp64_eq in *.
  exists m3, e2.
  replace (e2 <=? emax - prec) with true by (symmetry; apply Z.leb_le; change (emax - prec) with 971; lia).
  split; [reflexivity | exact H3].
Qed.

Lemma scaled_lt_of_exponent_lt (m m' : positive) (e e' : Z) :
  valid_binary (S754_finite false m e) = true ->
  valid_binary (S754_finite false m' e') = true ->
  e < e' -> scaled (Zpos m) e < scaled (Zpos m') e'.
Proof.
  intros V V' H.
  pose proof (valid_binary_exponent _ _ _ V) as (B & _).
  pose proof (mantissa_lt_pow53 _ _ _ V) as U.
  pose proof (mantissa_ge_pow52 _ _ _ V' ltac:(lia)) as L.
  rewrite (scaled_shift (Zpos m') e e') by lia. unfold scaled.
  apply Z.mul_lt_mono_pos_r; [apply pow2_pos; lia |].
  assert (2 ^ 1 <= 2 ^ (e' - e)) by (apply Z.pow_le_mono_r; lia).
  change (2 ^ 1) with 2 in *.
  apply Z.lt_le_trans with (2 ^ 52 * 2); [exact U |].
  apply Z.mul_le_mono_nonneg; lia.
Qed.

Lemma SFleb_of_scaled_le (m m' : positive) (e e' : Z) :
  valid_binary (S754_finite false m e) = true ->
  valid_binary (S754_finite false m' e') = true ->
  scaled (Zpos m) e <= scaled (Zpos m') e' ->
  SFleb (S754_finite false m e) (S754_finite false m' e') = true.
Proof.
  intros V V' H. apply SFleb_finite_iff.
  destruct (Z.lt_trichotomy e e') as [L | [E | G]]; [left; exact L | right | exfalso].
  - split; [exact E |]. subst e'. unfold scaled in H.
    pose proof (valid_binary_exponent _ _ _ V) as (B & _).
    apply Z.mul_le_mono_pos_r in H; [exact H | apply pow2_pos; lia].
  - pose proof (scaled_lt_of_exponent_lt m' m e' e V' V G). lia.
Qed.

Lemma scaled_le_of_SFleb (m m' : positive) (e e' : Z) :
  valid_binary (S754_finite false m e) = true ->
  valid_binary (S754_finite false m' e') = true ->
  SFleb (S754_finite false m e) (S754_finite false m' e') = true ->
  scaled (Zpos m) e <= scaled (Zpos m') e'.
Proof.
  intros V V' H. apply SFleb_finite_iff in H as [L | [-> L]].
  - pose proof (scaled_lt_of_exponent_lt m m' e e' V V' L). lia.
  - unfold scaled. pose proof (valid_binary_exponent _ _ _ V') as (B & _).
    apply Z.mul_le_mono_nonneg_r; [| exact L].
    pose proof (pow2_pos (e' + 2200) ltac:(lia)). lia.
Qed.

(** Alignment keeps the value. *)
Lemma Zpos_iter_xO (d m : positive) : Zpos (Pos.iter xO m d) = Zpos m * 2 ^ Zpos d.
Proof.
  induction d as [| d IH] using Pos.peano_ind.
  - cbn. lia.
  - rewrite Pos.iter_succ, Pos2Z.inj_succ, Z.pow_succ_r by lia.
    rewrite Pos2Z.inj_xO, IH. ring.
Qed.

Lemma shl_align_fst (m : positive) (e e' : Z) :
  e' <= e -> Zpos (fst (shl_align m e e')) = Zpos m * 2 ^ (e - e').
Proof.
  intros H. unfold shl_align. destruct (e' - e) as [| d | d] eqn:E; cbn [fst]; try lia.
  - replace (e - e') with 0 by lia. lia.
  - rewrite Zpos_iter_xO. replace (e - e') with (Zpos d) by lia. reflexivity.
Qed.

Lemma shl_align_scaled (m : positive) (e e' : Z) :
  -2200 <= e -> -2200 <= e' ->
  scaled (Zpos (fst (shl_align m e e'))) (snd (shl_align m e e')) = scaled (Zpos m) e /\
  -2200 <= snd (shl_align m e e').
Proof.
  intros H H'. unfold shl_align. destruct (e' - e) as [| d | d] eqn:E; cbn [fst snd];
    try (split; [reflexivity | lia]).
  split; [| lia].
  rewrite Zpos_iter_xO. rewrite (scaled_shift (Zpos m) e' e) by lia.
  replace (e - e') with (Zpos d) by lia. reflexivity.
Qed.

Lemma binary_round_le (S : positive) (E : Z) (my : positive) (ey : Z) :
  -2200 <= E ->
  valid_binary (S754_finite false my ey) = true -> ey <= 900 ->
  scaled (Zpos S) E <= scaled (Zpos my) ey ->
  binary_round prec emax false S E = S754_zero false \/
  exists (m : positive) (e : Z),
    binary_round prec emax false S E = S754_finite false m e /\
    scaled (Zpos m) e <= scaled (Zpos my) ey.
Proof.
  intros HE V Hey H. unfold binary_round.
  assert (F : -2200 <= fexp prec emax (Zpos (digits2_pos S) + E)).
  { change (fexp prec emax) with fexp64. rewrite fexp64_eq. lia. }
  pose proof (shl_align_scaled S E _ HE F) as (A & B).
  destruct (shl_align S E (fexp prec emax (Zpos (digits2_pos S) + E))) as [mz ez].
  cbn [fst snd] in *.
  apply binary_round_aux_le; try assumption; lia.
Qed.

(** ** Products and sums of doubles of the unit interval *)

Lemma scaled_one : scaled 4503599627370496 (-52) = 2 ^ 2200.
Proof. reflexivity. Qed.

Lemma nonneg_below_of_round (bound : Z) (r : spec_float) :
  (r = S754_zero false \/
   exists (m : positive) (e : Z), r = S754_finite false m e /\ scaled (Zpos m) e <= bound) ->
  nonneg_below bound r.
Proof. intros [-> | (m & e & -> & H)]; [exact I | exact H]. Qed.

(** A double in [0, 1]. *)
Lemma unit_interval_shape (x : spec_float) :
  valid_binary x = true ->
  SFleb (S754_zero false) x = true -> SFleb x one64 = true ->
  nonneg_below (2 ^ 2200) x.
Proof.
  intros V H0 H1. destruct x as [s | s | | s m e]; try exact I; try discriminate.
  - destruct s; discriminate.
  - destruct s; [discriminate |]. cbn [nonneg_below]. rewrite <- scaled_one.
    apply scaled_le_of_SFleb; [exact V | reflexivity | exact H1].
Qed.

Lemma unit_interval_of_shape (x : spec_float) :
  valid_binary x = true -> nonneg_below (2 ^ 2200) x ->
  SFleb (S754_zero false) x = true /\ SFleb x one64 = true.
Proof.
  intros V H. destruct x as [s | s | | s m e]; try contradiction.
  - split; reflexivity.
  - destruct s; [contradiction |]. cbn [nonneg_below] in H. rewrite <- scaled_one in H.
    split; [reflexivity |].
    apply SFleb_of_scaled_le; [exact V | reflexivity | exact H].
Qed.

(** Scaling a double of [0, 1] by a positive double [c] gives at most [c]. *)
Lemma SFmul_nonneg_below (mc : positive) (ec : Z) (x : spec_float) :
  valid_binary (S754_finite false mc ec) = true -> ec <= 900 ->
  valid_binary x = true -> nonneg_below (2 ^ 2200) x ->
  nonneg_below (scaled (Zpos mc) ec) (SFmul prec emax (S754_finite false mc ec) x).
Proof.
  intros Vc Hc Vx Hx. destruct x as [s | s | | s mx ex]; try contradiction.
  - exact I.
  - destruct s; [contradiction |]. cbn [nonneg_below] in Hx. cbn [SFmul xorb].
    apply nonneg_below_of_round.
    pose proof (valid_binary_exponent _ _ _ Vc) as (Bc & _).
    pose proof (valid_binary_exponent _ _ _ Vx) as (Bx & _).
    apply binary_round_aux_le; try assumption; try lia.
    unfold scaled in *.
    assert (G1 : 2 ^ (ec + ex + 2200) = 2 ^ (ex + 1074) * 2 ^ (ec + 1126))
      by (rewrite <- Z.pow_add_r by lia; f_equal; lia).
    assert (G2 : 2 ^ (ec + 2200) = 2 ^ 1074 * 2 ^ (ec + 1126))
      by (rewrite <- Z.pow_add_r by lia; f_equal; lia).
    assert (G3 : 2 ^ (ex + 2200) = 2 ^ (ex + 1074) * 2 ^ 1126)
      by (rewrite <- Z.pow_add_r by lia; f_equal; lia).
    rewrite G1, G2. rewrite G3 in Hx.
    change (2 ^ 2200) with (2 ^ 1074 * 2 ^ 1126) in Hx.
    rewrite Z.mul_assoc in Hx.
    apply Z.mul_le_mono_pos_r in Hx; [| apply pow2_pos; lia].
    rewrite Pos2Z.inj_mul.
    replace (Zpos mc * Zpos mx * (2 ^ (ex + 1074) * 2 ^ (ec + 1126)))
      with (Zpos mc * (Zpos mx * 2 ^ (ex + 1074)) * 2 ^ (ec + 1126)) by ring.
    replace (Zpos mc * (2 ^ 1074 * 2 ^ (ec + 1126)))
      with (Zpos mc * 2 ^ 1074 * 2 ^ (ec + 1126)) by ring.
    apply Z.mul_le_mono_nonneg_r; [pose proof (pow2_pos (ec + 1126)); lia |].
    apply Z.mul_le_mono_nonneg_l; [lia | exact Hx].
Qed.

(** The sum of two non-negative doubles whose values add up to at most the
    double [(my, ey)] is a non-negative double not above it. *)
Lemma SFadd_nonneg_below (a b : spec_float) (Ba Bb : Z) (my : positive) (ey : Z) :
  valid_binary a = true -> valid_binary b = true ->
  nonneg_below Ba a -> nonneg_below Bb b -> 0 <= Ba -> 0 <= Bb ->
  valid_binary (S754_finite false my ey) = true -> ey <= 900 ->
  Ba + Bb <= scaled (Zpos my) ey ->
  nonneg_below (scaled (Zpos my) ey) (SFadd prec emax a b).
Proof.
  intros Va Vb Ha Hb Pa Pb Vy Hy Hsum.
  destruct a as [sa | sa | | sa ma ea]; try contradiction;
    destruct b as [sb | sb | | sb mb eb]; try contradiction.
  - destruct sa, sb; exact I.
  - destruct sb; [contradiction |]. cbn in *. lia.
  - destruct sa; [contradiction |]. cbn in *. lia.
  - destruct sa; [contradiction |]. destruct sb; [contradiction |].
    cbn [nonneg_below] in Ha, Hb. cbn [SFadd cond_Zopp].
    pose proof (valid_binary_exponent _ _ _ Va) as (Ea & _).
    pose proof (valid_binary_exponent _ _ _ Vb) as (Eb & _).
    set (ez := Z.min ea eb).
    pose proof (shl_align_fst ma ea ez ltac:(unfold ez; lia)) as Fa.
    pose proof (shl_align_fst mb eb ez ltac:(unfold ez; lia)) as Fb.
    set (ma' := fst (shl_align ma ea ez)) in *.
    set (mb' := fst (shl_align mb eb ez)) in *.
    change (Zpos ma' + Zpos mb') with (Zpos (ma' + mb')).
    cbn [binary_normalize].
    apply nonneg_below_of_round.
    apply binary_round_le; try assumption; [unfold ez; lia |].
    rewrite Pos2Z.inj_add, Fa, Fb.
    rewrite (scaled_shift (Zpos ma) ez ea) in Ha by (unfold ez; lia).
    rewrite (scaled_shift (Zpos mb) ez eb) in Hb by (unfold ez; lia).
    unfold scaled at 1. lia.
Qed.

Lemma float_unit_interval_shape (x : float) :
  (0 <=? x)%float = true -> (x <=? 1)%float = true -> nonneg_below (2 ^ 2200) (Prim2SF x).
Proof.
  rewrite !FloatAxioms.leb_spec. intros H0 H1.
  apply unit_interval_shape; [apply Prim2SF_valid | exact H0 | exact H1].
Qed.

Lemma float_unit_interval_of_shape (x : float) :
  nonneg_below (2 ^ 2200) (Prim2SF x) ->
  (0 <=? x)%float = true /\ (x <=? 1)%float = true.
Proof.
  rewrite !FloatAxioms.leb_spec. intros H.
  apply unit_interval_of_shape; [apply Prim2SF_valid | exact H].
Qed.

(** The weighted rule score [0.7 * q] is at most the double 0.7. *)
Lemma weighted_rule_score_shape (q : float) :
  In q [0%float; 0.25%float; 0.5%float; 0.75%float; 1%float] ->
  nonneg_below (scaled 6305039478318694 (-53)) (Prim2SF (0.7 * q)%float).
Proof.
  intros [<- | [<- | [<- | [<- | [<- | []]]]]];
    vm_compute; try exact I; intros H; discriminate H.
Qed.

(** For a classifier output [p] in [0, 1] and a rule score [q], the blend
    [0.3 * p + 0.7 * q] computed in binary64 lies in [0, 1]. *)
Lemma blend_in_unit_interval (p q : float) :
  (0 <=? p)%float = true -> (p <=? 1)%float = true ->
  In q [0%float; 0.25%float; 0.5%float; 0.75%float; 1%float] ->
  (0 <=? 0.3 * p + 0.7 * q)%float = true /\ (0.3 * p + 0.7 * q <=? 1)%float = true.
Proof.
  intros H0 H1 Hq. apply float_unit_interval_of_shape.
  rewrite FloatAxioms.add_spec. rewrite <- scaled_one.
  apply (SFadd_nonneg_below _ _ (scaled 5404319552844595 (-54))
           (scaled 6305039478318694 (-53))).
  - apply Prim2SF_valid.
  - apply Prim2SF_valid.
  - rewrite FloatAxioms.mul_spec.
    change (Prim2SF 0.3) with (S754_finite false 5404319552844595 (-54)).
    apply SFmul_nonneg_below; [reflexivity | lia | apply Prim2SF_valid |].
    apply float_unit_interval_shape; assumption.
  - apply weighted_rule_score_shape. exact Hq.
  - vm_compute. discriminate.
  - vm_compute. discriminate.
  - reflexivity.
  - lia.
  - vm_compute. discriminate.
Qed.

(** ** Risk classifier *)

Lemma risk_level_LOW (x : float) : (x <? 0.3)%float = true -> risk_level x = "LOW"%string.
Proof. unfold risk_level. intros ->. reflexivity. Qed.

Lemma risk_level_MEDIUM (x : float) :
  (0.3 <=? x)%float = true -> (x <? 0.6)%float = true -> risk_level x = "MEDIUM"%string.
Proof.
  unfold risk_level. intros H K. rewrite (ltb_false_of_leb _ _ H), K. reflexivity.
Qed.

Lemma risk_level_HIGH (x : float) : (0.6 <=? x)%float = true -> risk_level x = "HIGH"%string.
Proof.
  unfold risk_level. intros H.
  rewrite (ltb_false_above 0.3 0.6 x eq_refl H), (ltb_false_of_leb _ _ H). reflexivity.
Qed.

Lemma risk_level_total (x : float) :
  risk_level x = "LOW"%string \/ risk_level x = "MEDIUM"%string \/ risk_level x = "HIGH"%string.
Proof.
  unfold risk_level. destruct (x <? 0.3)%float; [| destruct (x <? 0.6)%float]; auto.
Qed.

(** ** Rule scorer *)

Lemma rule_score_count (info : Info) :
  rule_score info = Ok (float_of_int (count_true (conditions info)) / 4)%float.
Proof.
  unfold rule_score, conditions, count_true.
  destruct (match age info with Some a => a <? 30 | None => false end);
    destruct (dns info); destruct (ssl info);
    destruct (3.5 <? entropy info)%float; reflexivity.
Qed.

Lemma rule_score_quarters (info : Info) :
  exists q, rule_score info = Ok q /\
            In q [0%float; 0.25%float; 0.5%float; 0.75%float; 1%float].
Proof.
  unfold rule_score.
  destruct (match age info with Some a => a <? 30 | None => false end);
    destruct (dns info); destruct (ssl info);
    destruct (3.5 <? entropy info)%float;
    (eexists; split; [reflexivity | cbn; tauto]).
Qed.

Lemma rule_score_ok (info : Info) : exists q, rule_score info = Ok q.
Proof. destruct (rule_score_quarters info) as (q & H & _). eauto. Qed.

(** ** Lexical signal extractor *)

Lemma len_nonneg (s : str) : 0 <= len s.
Proof. unfold len. lia. Qed.

Lemma len_repeat_char (c : codepoint) (n : nat) : len (repeat_char c n) = Z.of_nat n.
Proof. unfold len. induction n; cbn [repeat_char List.length]; lia. Qed.

Lemma count_repeat_char (c : codepoint) (n : nat) :
  count c (repeat_char c n) = Z.of_nat n.
Proof.
  induction n; cbn [repeat_char count]; [reflexivity |].
  rewrite N.eqb_refl, IHn. lia.
Qed.

Lemma In_repeat_char (x c : codepoint) (n : nat) :
  In x (repeat_char c n) <-> (c = x /\ (0 < n)%nat).
Proof.
  induction n; cbn [repeat_char In]; [split; [tauto | lia] |].
  rewrite IHn. split; [intros [H | [H _]]; split; auto; lia | tauto].
Qed.

Lemma count_bounds (c : codepoint) (s : str) : 0 <= count c s <= len s.
Proof.
  unfold len. induction s as [| a s IH]; cbn [count List.length]; [lia |].
  destruct (N.eqb a c); lia.
Qed.

Lemma count_mem (c : codepoint) (s : str) : In c s -> 1 <= count c s.
Proof.
  induction s as [| a s IH]; cbn [count In]; [tauto |].
  pose proof (count_bounds c s) as B.
  intros [-> | H]; [rewrite N.eqb_refl; lia |].
  specialize (IH H). destruct (N.eqb a c); lia.
Qed.

Lemma singleton_of_NoDup {A : Type} (l : list A) (c : A) :
  NoDup l -> (forall x, In x l <-> c = x) -> l = [c].
Proof.
  intros N H. destruct l as [| a l].
  - exfalso. apply (H c). reflexivity.
  - assert (c = a) as <- by (apply H; left; reflexivity).
    destruct l as [| b l]; [reflexivity |].
    assert (c = b) as <- by (apply H; right; left; reflexivity).
    inversion N as [| ? ? Hn _]. exfalso. apply Hn. left. reflexivity.
Qed.

Lemma comprehension_ok {A B : Type} (f : A -> result B) (P : B -> Prop) (l : list A) :
  (forall x, In x l -> exists y, f x = Ok y /\ P y) ->
  exists ys, comprehension f l = Ok ys /\ Forall P ys.
Proof.
  induction l as [| x l IH]; intros H; cbn [comprehension].
  - exists []. split; [reflexivity | constructor].
  - destruct (H x (or_introl eq_refl)) as (y & Hy & Py).
    destruct IH as (ys & Hys & Pys); [intros z Hz; apply H; right; exact Hz |].
    exists (y :: ys). rewrite Hy. cbn. rewrite Hys. cbn.
    split; [reflexivity | constructor; assumption].
Qed.

Lemma shannon_entropy_empty (w : World) : shannon_entropy w [] = Ok 0%float.
Proof. reflexivity. Qed.

(** The entropy of one repeated character: the single probability is 1.0,
    its logarithm 0.0, and the negated sum is the double -0.0. *)
Lemma shannon_entropy_repeat_char (w : World) (c : codepoint) (n : nat) :
  WorldOK w -> (0 < n)%nat -> Z.of_nat n <= sys_maxsize ->
  shannon_entropy w (repeat_char c n) = Ok (-0)%float.
Proof.
  intros [Hnd Hmem Hlog] Hn Hmax. unfold shannon_entropy.
  rewrite len_repeat_char.
  replace (Z.of_nat n =? 0) with false by (symmetry; apply Z.eqb_neq; lia).
  rewrite (singleton_of_NoDup (set_iter w (repeat_char c n)) c (Hnd _)).
  2:{ intros x. rewrite Hmem, In_repeat_char. tauto. }
  cbn [comprehension]. rewrite count_repeat_char. unfold float_div_int.
  replace (Z.of_nat n =? 0) with false by (symmetry; apply Z.eqb_neq; lia).
  rewrite float_of_int_div_self by lia.
  cbn [bind comprehension]. unfold math_log2.
  change (1 <=? 0)%float with false. cbv iota. rewrite Hlog.
  reflexivity.
Qed.

(** [shannon_entropy] raises on no string a CPython process can hold. *)
Lemma shannon_entropy_total (w : World) (s : str) :
  WorldOK w -> len s <= sys_maxsize -> exists r, shannon_entropy w s = Ok r.
Proof.
  intros [Hnd Hmem Hlog] Hmax. unfold shannon_entropy.
  destruct (len s =? 0) eqn:E; [eexists; reflexivity |].
  apply Z.eqb_neq in E. pose proof (len_nonneg s) as L.
  destruct (comprehension_ok
              (fun c => float_div_int (float_of_int (count c s)) (len s))
              (fun p => (p <=? 0)%float = false) (set_iter w s)) as (prob & -> & Hprob).
  { intros c Hc. apply (proj1 (Hmem s c)) in Hc.
    pose proof (count_mem c s Hc). pose proof (count_bounds c s).
    unfold float_div_int.
    replace (len s =? 0) with false by (symmetry; apply Z.eqb_neq; lia).
    eexists. split; [reflexivity |].
    apply float_of_int_div_positive; lia. }
  cbn [bind].
  destruct (comprehension_ok
              (fun p => l <- math_log2 w p ;; Ok (p * l)%float)
              (fun _ => True) prob) as (terms & -> & _).
  { intros p Hp. rewrite Forall_forall in Hprob. specialize (Hprob p Hp). cbv beta in Hprob.
    unfold math_log2. rewrite Hprob. cbn. eexists. split; [reflexivity | exact I]. }
  cbn [bind]. eexists. reflexivity.
Qed.

(** ** Domain reputation prober *)

Lemma split_head (sep : codepoint) (s : str) :
  exists h, getitem (split sep s) 0 = Ok h /\ len h <= len s.
Proof.
  unfold len. induction s as [| a s (h & Hh & Hl)]; cbn [split].
  - exists []. split; [reflexivity | cbn; lia].
  - destruct (N.eqb a sep).
    + exists []. split; [reflexivity | cbn; lia].
    + destruct (split sep s) as [| h' t]; [discriminate |].
      injection Hh as ->.
      exists (a :: h). split; [reflexivity | cbn [List.length]; lia].
Qed.

Lemma whois_age_raise (w : World) (registered : str) (e : exn) :
  whois_creation_date w registered = Raise e ->
  try_except (whois_age w registered) None = None.
Proof. unfold whois_age. intros ->. reflexivity. Qed.

Lemma whois_age_no_date (w : World) (registered : str) (v : PyValue) :
  whois_creation_date w registered = Ok v -> creation_datetime v = None ->
  try_except (whois_age w registered) None = None.
Proof.
  unfold whois_age. intros -> H. cbn [bind].
  destruct v as [| b | f | s | d | [| [| b | f | s | d | l'] l]];
    try discriminate; reflexivity.
Qed.

Lemma whois_age_date (w : World) (registered : str) (v : PyValue) (d : datetime) :
  whois_creation_date w registered = Ok v -> creation_datetime v = Some d ->
  try_except (whois_age w registered) None =
    if tz_aware d then None
    else Some ((timestamp_us (utcnow w) - timestamp_us d) / 86400000000).
Proof.
  unfold whois_age. intros -> H. cbn [bind].
  destruct v as [| b | f | s | d' | [| [| b | f | s | d' | l'] l]];
    try discriminate; injection H as ->; cbn; unfold days_since;
    cbn [utcnow tz_aware timestamp_us xorb];
    destruct (tz_aware d); reflexivity.
Qed.

(** ** Endpoints *)

(** Constants of the source, as doubles. *)
Lemma one_minus_URL_BLEND : (1 - URL_BLEND)%float = 0.7%float.
Proof. reflexivity. Qed.

Lemma positive_proba_no_model (vec : option Vectorizer) (text : str) :
  positive_proba None vec text = Raise AttributeError.
Proof. reflexivity. Qed.

Lemma positive_proba_no_vectorizer (c : Classifier) (text : str) :
  positive_proba (Some c) None text = Raise AttributeError.
Proof. reflexivity. Qed.

(** After the startup hook no global is None. *)
Lemma load_models_sets_every_global (disk : Pickles) (g : Globals) :
  url_model (load_models disk g) <> None /\
  email_model (load_models disk g) <> None /\
  coord_model (load_models disk g) <> None /\
  url_vec (load_models disk g) <> None /\
  email_vec (load_models disk g) <> None.
Proof. repeat split; discriminate. Qed.

Lemma scan_url_ok (g : Globals) (w : World) (data : URLRequest)
    (p q : float) (info : Info) :
  positive_proba (url_model g) (url_vec g) (url data) = Ok p ->
  extract_domain_info w (url data) = Ok info ->
  rule_score info = Ok q ->
  scan_url g w data =
    Ok [ ("ml_score"%string, PyFloat p);
         ("domain_score"%string, PyFloat q);
         ("blended_score"%string, PyFloat (URL_BLEND * p + (1 - URL_BLEND) * q)%float);
         ("risk"%string, PyStr (risk_level (URL_BLEND * p + (1 - URL_BLEND) * q)%float));
         ("phishing"%string, PyBool (0.5 <=? URL_BLEND * p + (1 - URL_BLEND) * q)%float) ].
Proof.
  intros Hp Hi Hq. unfold scan_url.
  rewrite (bind_Ok _ _ _ Hp), (bind_Ok _ _ _ Hi), (bind_Ok _ _ _ Hq). reflexivity.
Qed.

Lemma scan_url_inv (g : Globals) (w : World) (data : URLRequest) (resp : dict) :
  scan_url g w data = Ok resp ->
  exists (p : float) (info : Info) (q : float),
    positive_proba (url_model g) (url_vec g) (url data) = Ok p /\
    extract_domain_info w (url data) = Ok info /\
    rule_score info = Ok q /\
    resp = [ ("ml_score"%string, PyFloat p);
             ("domain_score"%string, PyFloat q);
             ("blended_score"%string, PyFloat (URL_BLEND * p + (1 - URL_BLEND) * q)%float);
             ("risk"%string, PyStr (risk_level (URL_BLEND * p + (1 - URL_BLEND) * q)%float));
             ("phishing"%string, PyBool (0.5 <=? URL_BLEND * p + (1 - URL_BLEND) * q)%float) ].
Proof.
  unfold scan_url. intros H.
  apply bind_Ok_inv in H as (p & Hp & H).
  apply bind_Ok_inv in H as (info & Hi & H).
  apply bind_Ok_inv in H as (q & Hq & H).
  injection H as <-. exists p, info, q. auto.
Qed.

Lemma scan_email_inv (g : Globals) (w : World) (data : EmailRequest) (resp : dict) :
  scan_email g w data = Ok resp ->
  exists p : float,
    positive_proba (email_model g) (email_vec g) (content data) = Ok p /\
    resp = [ ("probability"%string, PyFloat p);
             ("risk"%string, PyStr (risk_level p));
             ("phishing"%string, PyBool (0.5 <=? p)%float) ].
Proof.
  unfold scan_email. intros H.
  apply bind_Ok_inv in H as (p & Hp & H).
  injection H as <-. exists p. auto.
Qed.

Lemma scan_combined_inv (g : Globals) (w : World) (data : CombinedRequest) (resp : dict) :
  scan_combined g w data = Ok resp ->
  exists (p e : float) (coord : Classifier) (proba : Matrix) (row : list float) (f : float),
    positive_proba (url_model g) (url_vec g) (combined_url data) = Ok p /\
    positive_proba (email_model g) (email_vec g) (combined_content data) = Ok e /\
    coord_model g = Some coord /\
    predict_proba coord [[p; e; 1%float; 1%float]] = Ok proba /\
    getitem proba 0 = Ok row /\
    getitem row 1 = Ok f /\
    resp = [ ("final_probability"%string, PyFloat f);
             ("risk"%string, PyStr (risk_level f));
             ("phishing"%string, PyBool (0.5 <=? f)%float) ].
Proof.
  unfold scan_combined. intros H.
  apply bind_Ok_inv in H as (p & Hp & H).
  apply bind_Ok_inv in H as (e & He & H).
  apply bind_Ok_inv in H as (predict & Hc & H).
  apply bind_Ok_inv in H as (proba & Hproba & H).
  apply bind_Ok_inv in H as (row & Hrow & H).
  apply bind_Ok_inv in H as (f & Hf & H).
  injection H as <-.
  destruct (coord_model g) as [coord |] eqn:Hcoord; [| discriminate].
  cbn in Hc. injection Hc as <-.
  exists p, e, coord, proba, row, f. repeat split; assumption.
Qed.

(** ** The sample deployments *)

Lemma sample_oracles_ok (w : World) :
  libm_log2 w 1%float = 0%float ->
  set_iter w = sample_set_iter \/ set_iter w = (fun s => rev (sample_set_iter s)) ->
  WorldOK w.
Proof.
  intros Hl [Hs | Hs]; constructor; rewrite ?Hs; unfold sample_set_iter; try exact Hl.
  - intros s. apply NoDup_nodup.
  - intros s c. apply nodup_In.
  - intros s. apply NoDup_rev, NoDup_nodup.
  - intros s c. rewrite <- in_rev. apply nodup_In.
Qed.

Lemma sample_worlds_ok :
  WorldOK offline_world /\ WorldOK young_domain_world /\ WorldOK healthy_world.
Proof. split; [| split]; apply sample_oracles_ok; (reflexivity || (left; reflexivity)). Qed.

Lemma more_sample_worlds_ok :
  WorldOK bracket_world /\ WorldOK process_seed_21 /\ WorldOK process_seed_11.
Proof.
  split; [| split]; apply sample_oracles_ok;
    first [reflexivity | left; reflexivity | right; reflexivity].
Qed.

(** ** What the framework can serialise *)

Lemma is_finite_of_unit_interval (x : float) :
  (0 <=? x)%float = true -> (x <=? 1)%float = true -> is_finite x = true.
Proof.
  intros H0 H1. pose proof (float_unit_interval_shape x H0 H1) as S.
  unfold is_finite, is_nan, is_infinity.
  rewrite !FloatAxioms.eqb_spec, FloatAxioms.abs_spec.
  change (Prim2SF infinity) with (S754_infinity false).
  destruct (Prim2SF x) as [s | s | | s m e]; try contradiction.
  - destruct s; reflexivity.
  - destruct s; [contradiction |].
    cbn [SFabs]. unfold SFeqb. cbn [SFcompare].
    rewrite Z.compare_refl, Pos.compare_cont_refl. reflexivity.
Qed.

Lemma is_finite_quarter (q : float) :
  In q [0%float; 0.25%float; 0.5%float; 0.75%float; 1%float] -> is_finite q = true.
Proof. intros [<- | [<- | [<- | [<- | [<- | []]]]]]; reflexivity. Qed.

(** A /scan_url response is serialised when its three scores are finite. *)
Lemma status_code_scan_url (p q b : float) (r : string) (f : bool) :
  status_code (Ok [ ("ml_score"%string, PyFloat p);
                    ("domain_score"%string, PyFloat q);
                    ("blended_score"%string, PyFloat b);
                    ("risk"%string, PyStr r);
                    ("phishing"%string, PyBool f) ]) =
    if is_finite p && is_finite q && is_finite b then 200 else 500.
Proof.
  cbn [status_code forallb snd json_compliant].
  destruct (is_finite p), (is_finite q), (is_finite b); reflexivity.
Qed.

Lemma scan_url_status_200 (p q : float) (r : string) (f : bool) :
  In q [0%float; 0.25%float; 0.5%float; 0.75%float; 1%float] ->
  (0 <=? p)%float = true -> (p <=? 1)%float = true ->
  status_code (Ok [ ("ml_score"%string, PyFloat p);
                    ("domain_score"%string, PyFloat q);
                    ("blended_score"%string,
                     PyFloat (URL_BLEND * p + (1 - URL_BLEND) * q)%float);
                    ("risk"%string, PyStr r);
                    ("phishing"%string, PyBool f) ]) = 200.
Proof.
  intros Hq H0 H1. rewrite status_code_scan_url.
  destruct (blend_in_unit_interval p q H0 H1 Hq) as (B0 & B1).
  rewrite (is_finite_of_unit_interval p H0 H1), (is_finite_quarter q Hq).
  change (URL_BLEND * p + (1 - URL_BLEND) * q)%float with (0.3 * p + 0.7 * q)%float.
  rewrite (is_finite_of_unit_interval _ B0 B1). reflexivity.
Qed.

(** ** The entropy reads two oracles only *)

Lemma comprehension_ext {A B : Type} (f g : A -> result B) (l : list A) :
  (forall x, f x = g x) -> comprehension f l = comprehension g l.
Proof.
  intros H. induction l as [| x l IH]; cbn [comprehension]; [reflexivity |].
  rewrite H, IH. reflexivity.
Qed.

Lemma shannon_entropy_ext (w w' : World) (s : str) :
  (forall x, libm_log2 w' x = libm_log2 w x) -> set_iter w' s = set_iter w s ->
  shannon_entropy w' s = shannon_entropy w s.
Proof.
  intros Hl Hs. unfold shannon_entropy. rewrite Hs.
  destruct (len s =? 0); [reflexivity |].
  destruct (comprehension _ (set_iter w s)) as [prob | e]; [| reflexivity].
  cbn [bind].
  rewrite (comprehension_ext (fun p => l <- math_log2 w' p ;; Ok (p * l)%float)
             (fun p => l <- math_log2 w p ;; Ok (p * l)%float)); [reflexivity |].
  intros p. unfold math_log2. rewrite Hl. reflexivity.
Qed.

(** * The claims *)

(** ** URL endpoint: the blend *)

(** C1: the /scan_url response carries the classifier's probability [p], the
    rule score [q] and the blend [0.3 * p + 0.7 * q], computed in binary64
    with [URL_BLEND = 0.3]. *)
Theorem scan_url_blend (g : Globals) (w : World) (data : URLRequest)
    (p q : float) (info : Info) :
  positive_proba (url_model g) (url_vec g) (url data) = Ok p ->
  extract_domain_info w (url data) = Ok info ->
  rule_score info = Ok q ->
  exists resp : dict,
    scan_url g w data = Ok resp /\
    dict_get resp "ml_score" = Some (PyFloat p) /\
    dict_get resp "domain_score" = Some (PyFloat q) /\
    dict_get resp "blended_score" = Some (PyFloat (0.3 * p + 0.7 * q)%float) /\
    URL_BLEND = 0.3%float /\
    (0.3 * p + 0.7 * q = URL_BLEND * p + (1 - URL_BLEND) * q)%float.
Proof.
  intros Hp Hi Hq. rewrite (scan_url_ok g w data p q info Hp Hi Hq).
  eexists. split; [reflexivity |].
  repeat split; reflexivity.
Qed.

Lemma scan_url_blend_witness :
  exists resp : dict,
    scan_url (sample_globals 0.9 0.2) young_domain_world {| url := lit "http://login.z.xyz/" |} = Ok resp /\
    dict_get resp "ml_score" = Some (PyFloat 0.9) /\
    dict_get resp "domain_score" = Some (PyFloat 0.75) /\
    dict_get resp "blended_score" = Some (PyFloat (0.3 * 0.9 + 0.7 * 0.75)%float) /\
    URL_BLEND = 0.3%float /\
    (0.3 * 0.9 + 0.7 * 0.75 = URL_BLEND * 0.9 + (1 - URL_BLEND) * 0.75)%float.
Proof.
  apply (scan_url_blend (sample_globals 0.9 0.2) young_domain_world
           {| url := lit "http://login.z.xyz/" |} 0.9 0.75
           {| age := Some 5; dns := false; ssl := false; entropy := (-0)%float |});
    reflexivity.
Defined.

(** ** Rule scorer: quarters *)

(** C2: rule_score is the number of true conditions over four, hence one of
    the five quarter values; the record with age 5, no DNS, no TLS and
    entropy 4.0 scores 1.0. *)
Theorem rule_score_is_count_over_four :
  (forall info : Info,
      rule_score info = Ok (float_of_int (count_true (conditions info)) / 4)%float /\
      conditions info = [ match age info with Some a => a <? 30 | None => false end;
                          negb (dns info); negb (ssl info);
                          (3.5 <? entropy info)%float ] /\
      exists q, rule_score info = Ok q /\
                In q [0%float; 0.25%float; 0.5%float; 0.75%float; 1%float]) /\
  rule_score {| age := Some 5; dns := false; ssl := false; entropy := 4%float |} = Ok 1%float.
Proof.
  split; [| reflexivity].
  intros info. split; [apply rule_score_count |].
  split; [reflexivity | apply rule_score_quarters].
Qed.

(** ** Combined endpoint: the coordinator's input *)

(** C3: the coordinator is called on [[p; e; 1; 1]] and nothing else, and no
    probe of the domain takes part: the answer is the same in every world. *)
Theorem scan_combined_coordinator_input (g : Globals) (w : World) (data : CombinedRequest)
    (p e : float) (coord : Classifier) :
  positive_proba (url_model g) (url_vec g) (combined_url data) = Ok p ->
  positive_proba (email_model g) (email_vec g) (combined_content data) = Ok e ->
  coord_model g = Some coord ->
  scan_combined g w data =
    (proba <- predict_proba coord [[p; e; 1%float; 1%float]] ;;
     row <- getitem proba 0 ;;
     final_prob <- getitem row 1 ;;
     Ok [ ("final_probability"%string, PyFloat final_prob);
          ("risk"%string, PyStr (risk_level final_prob));
          ("phishing"%string, PyBool (0.5 <=? final_prob)%float) ]) /\
  forall w' : World, scan_combined g w' data = scan_combined g w data.
Proof.
  intros Hp He Hc. split; [| reflexivity].
  unfold scan_combined. rewrite (bind_Ok _ _ _ Hp), (bind_Ok _ _ _ He), Hc.
  reflexivity.
Qed.

Lemma scan_combined_coordinator_input_witness :
  scan_combined (sample_globals 0.8 0.8) offline_world
    {| combined_url := lit "not-a-url"; combined_content := lit "verify your account" |} =
    (proba <- predict_proba averaging_coordinator [[0.8; 0.8; 1; 1]]%float ;;
     row <- getitem proba 0 ;;
     final_prob <- getitem row 1 ;;
     Ok [ ("final_probability"%string, PyFloat final_prob);
          ("risk"%string, PyStr (risk_level final_prob));
          ("phishing"%string, PyBool (0.5 <=? final_prob)%float) ]) /\
  forall w' : World,
    scan_combined (sample_globals 0.8 0.8) w'
      {| combined_url := lit "not-a-url"; combined_content := lit "verify your account" |} =
    scan_combined (sample_globals 0.8 0.8) offline_world
      {| combined_url := lit "not-a-url"; combined_content := lit "verify your account" |}.
Proof.
  apply (scan_combined_coordinator_input (sample_globals 0.8 0.8) offline_world
           {| combined_url := lit "not-a-url"; combined_content := lit "verify your account" |}
           0.8 0.8 averaging_coordinator);
    reflexivity.
Defined.

(** ** Risk label and decision flag of the three endpoints *)

(** C4: risk_level always answers one of LOW, MEDIUM, HIGH, by the cut points
    0.3 and 0.6, and each endpoint labels its final score with it. *)
Theorem risk_level_three_tiers :
  (forall x : float,
      ((x <? 0.3)%float = true -> risk_level x = "LOW"%string) /\
      ((0.3 <=? x)%float = true -> (x <? 0.6)%float = true ->
       risk_level x = "MEDIUM"%string) /\
      ((0.6 <=? x)%float = true -> risk_level x = "HIGH"%string) /\
      (risk_level x = "LOW"%string \/ risk_level x = "MEDIUM"%string \/
       risk_level x = "HIGH"%string)) /\
  (forall g w data resp, scan_url g w data = Ok resp ->
      exists s, dict_get resp "blended_score" = Some (PyFloat s) /\
                dict_get resp "risk" = Some (PyStr (risk_level s))) /\
  (forall g w data resp, scan_email g w data = Ok resp ->
      exists s, dict_get resp "probability" = Some (PyFloat s) /\
                dict_get resp "risk" = Some (PyStr (risk_level s))) /\
  (forall g w data resp, scan_combined g w data = Ok resp ->
      exists s, dict_get resp "final_probability" = Some (PyFloat s) /\
                dict_get resp "risk" = Some (PyStr (risk_level s))).
Proof.
  split; [| split; [| split]].
  - intros x. split; [apply risk_level_LOW |].
    split; [apply risk_level_MEDIUM |].
    split; [apply risk_level_HIGH | apply risk_level_total].
  - intros g w data resp H.
    apply scan_url_inv in H as (p & info & q & _ & _ & _ & ->).
    eexists. split; reflexivity.
  - intros g w data resp H.
    apply scan_email_inv in H as (p & _ & ->).
    eexists. split; reflexivity.
  - intros g w data resp H.
    apply scan_combined_inv in H as (p & e & c & proba & row & f & _ & _ & _ & _ & _ & _ & ->).
    eexists. split; reflexivity.
Qed.

(** C5: on each endpoint the phishing flag is the test [score >= 0.5] on that
    endpoint's final score; a score in [0.5, 0.6) is flagged and MEDIUM. *)
Theorem phishing_flag_threshold :
  (forall g w data resp, scan_url g w data = Ok resp ->
      exists s, dict_get resp "blended_score" = Some (PyFloat s) /\
                dict_get resp "phishing" = Some (PyBool (0.5 <=? s)%float)) /\
  (forall g w data resp, scan_email g w data = Ok resp ->
      exists s, dict_get resp "probability" = Some (PyFloat s) /\
                dict_get resp "phishing" = Some (PyBool (0.5 <=? s)%float)) /\
  (forall g w data resp, scan_combined g w data = Ok resp ->
      exists s, dict_get resp "final_probability" = Some (PyFloat s) /\
                dict_get resp "phishing" = Some (PyBool (0.5 <=? s)%float)) /\
  (forall x : float, (0.5 <=? x)%float = true -> (x <? 0.6)%float = true ->
      risk_level x = "MEDIUM"%string).
Proof.
  split; [| split; [| split]].
  - intros g w data resp H.
    apply scan_url_inv in H as (p & info & q & _ & _ & _ & ->).
    eexists. split; reflexivity.
  - intros g w data resp H.
    apply scan_email_inv in H as (p & _ & ->).
    eexists. split; reflexivity.
  - intros g w data resp H.
    apply scan_combined_inv in H as (p & e & c & proba & row & f & _ & _ & _ & _ & _ & _ & ->).
    eexists. split; reflexivity.
  - intros x H5 H6. unfold risk_level.
    rewrite (ltb_false_above 0.3 0.5 x eq_refl H5), H6. reflexivity.
Qed.

(** ** Probe failures *)

(** C6, as the claim states it, fails: urlparse is called outside the three
    try blocks, so a URL that it rejects aborts [extract_domain_info] and
    the request, although every probe would succeed. *)
Lemma extract_domain_info_aborts_on_urlparse :
  extract_domain_info bracket_world (lit "http://[::1") = Raise ValueError /\
  scan_url (sample_globals 0.9 0.2) bracket_world {| url := lit "http://[::1" |}
    = Raise ValueError /\
  dns_resolve bracket_world (lit "python.org") = Ok tt /\
  tls_handshake bracket_world (lit "python.org") = Ok tt /\
  WorldOK bracket_world.
Proof. do 4 (split; [reflexivity |]). exact (proj1 more_sample_worlds_ok). Qed.

(** C6 (amended): for a URL that urlparse accepts, whatever the three probes
    do, [extract_domain_info] returns all four signals: a failed or dateless
    WHOIS lookup gives age None, a failed DNS resolution gives dns False, a
    failed handshake gives ssl False, and /scan_url still answers.  A URL
    that urlparse rejects aborts with urlparse's exception. *)
Theorem extract_domain_info_absorbs_probe_failures (w : World) (u : str) :
  WorldOK w ->
  (forall d, len (registered_domain w d) <= sys_maxsize) ->
  (forall e, urlparse_netloc w u = Raise e -> extract_domain_info w u = Raise e) /\
  (forall netloc registered,
     urlparse_netloc w u = Ok netloc ->
     registered = registered_domain w (if len netloc =? 0 then u else netloc) ->
     exists info : Info,
       extract_domain_info w u = Ok info /\
       (forall e, whois_creation_date w registered = Raise e -> age info = None) /\
       (forall v, whois_creation_date w registered = Ok v -> creation_datetime v = None ->
                  age info = None) /\
       (forall v d, whois_creation_date w registered = Ok v -> creation_datetime v = Some d ->
                    age info = if tz_aware d then None
                               else Some ((timestamp_us (utcnow w) - timestamp_us d)
                                          / 86400000000)) /\
       (forall e, dns_resolve w registered = Raise e -> dns info = false) /\
       (dns_resolve w registered = Ok tt -> dns info = true) /\
       (forall e, tls_handshake w registered = Raise e -> ssl info = false) /\
       (tls_handshake w registered = Ok tt -> ssl info = true) /\
       (exists label, getitem (split (ord ".") registered) 0 = Ok label /\
                      shannon_entropy w label = Ok (entropy info)) /\
       (forall g p, positive_proba (url_model g) (url_vec g) u = Ok p ->
                    exists resp, scan_url g w {| url := u |} = Ok resp)).
Proof.
  intros Hw Hmax. split.
  { intros e He. unfold extract_domain_info. rewrite He. reflexivity. }
  intros netloc registered Hn Hr.
  destruct (split_head (ord ".") registered) as (label & Hlabel & Hlen).
  assert (Hreg : len registered <= sys_maxsize) by (rewrite Hr; apply Hmax).
  destruct (shannon_entropy_total w label Hw ltac:(lia)) as (ent & Hent).
  assert (Hi : extract_domain_info w u =
               Ok {| age := try_except (whois_age w registered) None;
                     dns := try_except (_ <- dns_resolve w registered ;; Ok true) false;
                     ssl := try_except (_ <- tls_handshake w registered ;; Ok true) false;
                     entropy := ent |}).
  { unfold extract_domain_info. rewrite (bind_Ok _ _ _ Hn). cbv zeta. rewrite <- Hr.
    rewrite (bind_Ok _ _ _ Hlabel), (bind_Ok _ _ _ Hent). reflexivity. }
  eexists. split; [exact Hi |]. cbn [age dns ssl entropy].
  split; [intros e He; exact (whois_age_raise _ _ _ He) |].
  split; [intros v Hv Hd; exact (whois_age_no_date _ _ _ Hv Hd) |].
  split; [intros v d Hv Hd; exact (whois_age_date _ _ _ _ Hv Hd) |].
  split; [intros e ->; reflexivity |].
  split; [intros ->; reflexivity |].
  split; [intros e ->; reflexivity |].
  split; [intros ->; reflexivity |].
  split; [exists label; auto |].
  intros g p Hp.
  destruct (rule_score_ok {| age := try_except (whois_age w registered) None;
                     dns := try_except (_ <- dns_resolve w registered ;; Ok true) false;
                     ssl := try_except (_ <- tls_handshake w registered ;; Ok true) false;
                     entropy := ent |}) as (q & Hq).
  eexists. exact (scan_url_ok g w {| url := u |} p q _ Hp Hi Hq).
Qed.

Lemma extract_domain_info_absorbs_probe_failures_witness :
  (forall e, urlparse_netloc offline_world (lit "not-a-url") = Raise e ->
             extract_domain_info offline_world (lit "not-a-url") = Raise e) /\
  (forall netloc registered,
     urlparse_netloc offline_world (lit "not-a-url") = Ok netloc ->
     registered = registered_domain offline_world
                    (if len netloc =? 0 then lit "not-a-url" else netloc) ->
     exists info : Info,
       extract_domain_info offline_world (lit "not-a-url") = Ok info /\
       (forall e, whois_creation_date offline_world registered = Raise e -> age info = None) /\
       (forall v, whois_creation_date offline_world registered = Ok v ->
                  creation_datetime v = None -> age info = None) /\
       (forall v d, whois_creation_date offline_world registered = Ok v ->
                    creation_datetime v = Some d ->
                    age info = if tz_aware d then None
                               else Some ((timestamp_us (utcnow offline_world) - timestamp_us d)
                                          / 86400000000)) /\
       (forall e, dns_resolve offline_world registered = Raise e -> dns info = false) /\
       (dns_resolve offline_world registered = Ok tt -> dns info = true) /\
       (forall e, tls_handshake offline_world registered = Raise e -> ssl info = false) /\
       (tls_handshake offline_world registered = Ok tt -> ssl info = true) /\
       (exists label, getitem (split (ord ".") registered) 0 = Ok label /\
                      shannon_entropy offline_world label = Ok (entropy info)) /\
       (forall g p, positive_proba (url_model g) (url_vec g) (lit "not-a-url") = Ok p ->
                    exists resp,
                      scan_url g offline_world {| url := lit "not-a-url" |} = Ok resp)).
Proof.
  apply (extract_domain_info_absorbs_probe_failures offline_world (lit "not-a-url")).
  - exact (proj1 sample_worlds_ok).
  - intros d. vm_compute. discriminate.
Defined.

(** ** Requests served while a model global is still None *)

(** C7, as the claim states it, fails on the module as imported: the answer
    is a 500 caused by AttributeError, not a 503. *)
Lemma scan_url_before_load_is_not_503 :
  scan_url initial_globals healthy_world {| url := lit "https://www.python.org/" |}
    = Raise AttributeError /\
  status_code (scan_url initial_globals healthy_world
                 {| url := lit "https://www.python.org/" |})
    <> 503.
Proof. split; [reflexivity | discriminate]. Qed.

(** C7 (amended): on the module as imported every endpoint raises
    AttributeError, whatever the request and the world, and the caller gets
    status 500.  In a partly loaded state, /scan_url and /scan_combined
    raise AttributeError when [url_model] or [url_vec] is None, and
    /scan_email when [email_model] or [email_vec] is None; /scan_combined
    with a later global missing first runs the classifier calls that come
    before it, raises what the first failing one raises, and AttributeError
    when they have all returned.  No such request is answered. *)
Theorem endpoints_without_models_raise_AttributeError (g : Globals) (w : World) :
  (forall data, scan_url initial_globals w data = Raise AttributeError /\
                status_code (scan_url initial_globals w data) = 500) /\
  (forall data, scan_email initial_globals w data = Raise AttributeError /\
                status_code (scan_email initial_globals w data) = 500) /\
  (forall data, scan_combined initial_globals w data = Raise AttributeError /\
                status_code (scan_combined initial_globals w data) = 500) /\
  (url_model g = None \/ url_vec g = None ->
   forall data data', scan_url g w data = Raise AttributeError /\
                      status_code (scan_url g w data) = 500 /\
                      scan_combined g w data' = Raise AttributeError) /\
  (email_model g = None \/ email_vec g = None ->
   forall data data',
     scan_email g w data = Raise AttributeError /\
     status_code (scan_email g w data) = 500 /\
     scan_combined g w data' =
       (_ <- positive_proba (url_model g) (url_vec g) (combined_url data') ;;
        Raise AttributeError)) /\
  (coord_model g = None ->
   forall data,
     scan_combined g w data =
       (_ <- positive_proba (url_model g) (url_vec g) (combined_url data) ;;
        _ <- positive_proba (email_model g) (email_vec g) (combined_content data) ;;
        Raise AttributeError)) /\
  (url_model g = None \/ url_vec g = None \/ email_model g = None \/ email_vec g = None \/
   coord_model g = None ->
   forall data, exists e, scan_combined g w data = Raise e /\
                          status_code (scan_combined g w data) = 500).
Proof.
  assert (P : forall m v text, m = None \/ v = None ->
                               positive_proba m v text = Raise AttributeError).
  { intros [c |] v text [H | H]; try discriminate; subst;
      [apply positive_proba_no_vectorizer | apply positive_proba_no_model ..]. }
  assert (E : forall data, email_model g = None \/ email_vec g = None ->
              scan_combined g w data =
                (_ <- positive_proba (url_model g) (url_vec g) (combined_url data) ;;
                 Raise AttributeError)).
  { intros data H. unfold scan_combined.
    rewrite (P (email_model g) (email_vec g) _ H). reflexivity. }
  assert (C : forall data, coord_model g = None ->
              scan_combined g w data =
                (_ <- positive_proba (url_model g) (url_vec g) (combined_url data) ;;
                 _ <- positive_proba (email_model g) (email_vec g) (combined_content data) ;;
                 Raise AttributeError)).
  { intros data H. unfold scan_combined. rewrite H. reflexivity. }
  assert (U : forall data, url_model g = None \/ url_vec g = None ->
              scan_combined g w data = Raise AttributeError).
  { intros data H. unfold scan_combined.
    rewrite (P (url_model g) (url_vec g) _ H). reflexivity. }
  split; [intros data; split; reflexivity |].
  split; [intros data; split; reflexivity |].
  split; [intros data; split; reflexivity |].
  split.
  { intros H data data'. split; [| split; [| exact (U data' H)]];
      unfold scan_url; rewrite (P (url_model g) (url_vec g) _ H); reflexivity. }
  split.
  { intros H data data'. split; [| split; [| exact (E data' H)]];
      unfold scan_email; rewrite (P (email_model g) (email_vec g) _ H); reflexivity. }
  split; [intros H data; exact (C data H) |].
  intros H data.
  assert (R : exists e, scan_combined g w data = Raise e).
  { destruct H as [H | [H | [H | [H | H]]]].
    - exists AttributeError. apply U. auto.
    - exists AttributeError. apply U. auto.
    - rewrite (E data (or_introl H)).
      destruct (positive_proba (url_model g) (url_vec g) (combined_url data)); cbn; eauto.
    - rewrite (E data (or_intror H)).
      destruct (positive_proba (url_model g) (url_vec g) (combined_url data)); cbn; eauto.
    - rewrite (C data H).
      destruct (positive_proba (url_model g) (url_vec g) (combined_url data)); cbn; eauto.
      destruct (positive_proba (email_model g) (email_vec g) (combined_content data));
        cbn; eauto. }
  destruct R as (e & R). exists e. rewrite R. split; reflexivity.
Qed.

(** ** URLs without a registrable domain *)

(** C8, as the claim states it, fails: a URL with no authority and no
    registrable domain is answered with status 200 and a full blended
    response, the classifier having been run. *)
Lemma scan_url_unparseable_is_scored :
  scan_url (sample_globals 0.9 0.2) offline_world {| url := lit "not-a-url" |} =
    Ok [ ("ml_score"%string, PyFloat 0.9);
         ("domain_score"%string, PyFloat 0.5);
         ("blended_score"%string, PyFloat 0.62);
         ("risk"%string, PyStr "HIGH");
         ("phishing"%string, PyBool true) ] /\
  status_code (scan_url (sample_globals 0.9 0.2) offline_world
                 {| url := lit "not-a-url" |}) = 200 /\
  ~ (400 <= status_code (scan_url (sample_globals 0.9 0.2) offline_world
                           {| url := lit "not-a-url" |}) < 500).
Proof. split; [reflexivity | split; [reflexivity | vm_compute; intros [H _]; apply H; reflexivity]]. Qed.

(** C8 (amended): when urlparse accepts the URL and no registrable domain
    is found in it, nothing is rejected.  The classifier call comes first,
    and its exception, if any, is the outcome.  Once it has returned [p],
    the probes are applied to the empty domain, the label is empty with
    entropy 0.0, and the blended response is returned; the caller receives
    it with status 200 when [p] lies in [0, 1]. *)
Theorem scan_url_without_registrable_domain (g : Globals) (w : World) (data : URLRequest)
    (netloc : str) :
  urlparse_netloc w (url data) = Ok netloc ->
  registered_domain w (if len netloc =? 0 then url data else netloc) = [] ->
  exists (info : Info) (q : float),
    extract_domain_info w (url data) = Ok info /\
    age info = try_except (whois_age w []) None /\
    dns info = try_except (_ <- dns_resolve w [] ;; Ok true) false /\
    ssl info = try_except (_ <- tls_handshake w [] ;; Ok true) false /\
    entropy info = 0%float /\
    rule_score info = Ok q /\
    (forall e, positive_proba (url_model g) (url_vec g) (url data) = Raise e ->
               scan_url g w data = Raise e /\ status_code (scan_url g w data) = 500) /\
    (forall p, positive_proba (url_model g) (url_vec g) (url data) = Ok p ->
       exists resp : dict,
         scan_url g w data = Ok resp /\
         dict_get resp "ml_score" = Some (PyFloat p) /\
         dict_get resp "domain_score" = Some (PyFloat q) /\
         dict_get resp "blended_score" = Some (PyFloat (0.3 * p + 0.7 * q)%float) /\
         ((0 <=? p)%float = true -> (p <=? 1)%float = true ->
          status_code (scan_url g w data) = 200)).
Proof.
  intros Hn Hr.
  set (info := {| age := try_except (whois_age w []) None;
                  dns := try_except (_ <- dns_resolve w [] ;; Ok true) false;
                  ssl := try_except (_ <- tls_handshake w [] ;; Ok true) false;
                  entropy := 0%float |}).
  assert (Hi : extract_domain_info w (url data) = Ok info).
  { unfold extract_domain_info. rewrite (bind_Ok _ _ _ Hn). cbv zeta. rewrite Hr.
    reflexivity. }
  destruct (rule_score_quarters info) as (q & Hq & Hin).
  exists info, q.
  do 6 (split; [first [assumption | reflexivity] |]).
  split.
  { intros e He. unfold scan_url. rewrite He. split; reflexivity. }
  intros p Hp. eexists.
  rewrite (scan_url_ok g w data p q info Hp Hi Hq).
  split; [reflexivity |]. do 3 (split; [reflexivity |]).
  intros H0 H1. apply scan_url_status_200; [exact Hin | exact H0 | exact H1].
Qed.

Lemma scan_url_without_registrable_domain_witness :
  exists (info : Info) (q : float),
    extract_domain_info offline_world (lit "not-a-url") = Ok info /\
    age info = try_except (whois_age offline_world []) None /\
    dns info = try_except (_ <- dns_resolve offline_world [] ;; Ok true) false /\
    ssl info = try_except (_ <- tls_handshake offline_world [] ;; Ok true) false /\
    entropy info = 0%float /\
    rule_score info = Ok q /\
    (forall e, positive_proba (url_model (sample_globals 0.9 0.2))
                 (url_vec (sample_globals 0.9 0.2)) (lit "not-a-url") = Raise e ->
               scan_url (sample_globals 0.9 0.2) offline_world
                 {| url := lit "not-a-url" |} = Raise e /\
               status_code (scan_url (sample_globals 0.9 0.2) offline_world
                              {| url := lit "not-a-url" |}) = 500) /\
    (forall p, positive_proba (url_model (sample_globals 0.9 0.2))
                 (url_vec (sample_globals 0.9 0.2)) (lit "not-a-url") = Ok p ->
       exists resp : dict,
         scan_url (sample_globals 0.9 0.2) offline_world {| url := lit "not-a-url" |}
           = Ok resp /\
         dict_get resp "ml_score" = Some (PyFloat p) /\
         dict_get resp "domain_score" = Some (PyFloat q) /\
         dict_get resp "blended_score" = Some (PyFloat (0.3 * p + 0.7 * q)%float) /\
         ((0 <=? p)%float = true -> (p <=? 1)%float = true ->
          status_code (scan_url (sample_globals 0.9 0.2) offline_world
                         {| url := lit "not-a-url" |}) = 200)).
Proof.
  apply (scan_url_without_registrable_domain (sample_globals 0.9 0.2) offline_world
           {| url := lit "not-a-url" |} []); reflexivity.
Defined.

(** ** No clamping on the URL path *)

(** C9, as the claim states it, fails: a classifier output of 2.0 enters the
    blend as 2.0, and the blended score is 1.125. *)
Lemma scan_url_out_of_range_is_not_clamped :
  scan_url (sample_globals 2 0.2) young_domain_world {| url := lit "http://login.z.xyz/" |} =
    Ok [ ("ml_score"%string, PyFloat 2);
         ("domain_score"%string, PyFloat 0.75);
         ("blended_score"%string, PyFloat 1.125);
         ("risk"%string, PyStr "HIGH");
         ("phishing"%string, PyBool true) ] /\
  (1.125 <=? 1)%float = false.
Proof. split; reflexivity. Qed.

(** C9 (amended): /scan_url has no clamping step.  The value blended is the
    classifier's output as returned, whatever its range; the other operand
    is the rule score, one of the five quarters of [0, 1]; and the blended
    score lies in [0, 1] whenever the classifier's output does. *)
Theorem scan_url_blends_the_raw_output (g : Globals) (w : World) (data : URLRequest)
    (resp : dict) :
  scan_url g w data = Ok resp ->
  exists p q b : float,
    positive_proba (url_model g) (url_vec g) (url data) = Ok p /\
    In q [0%float; 0.25%float; 0.5%float; 0.75%float; 1%float] /\
    b = (0.3 * p + 0.7 * q)%float /\
    dict_get resp "ml_score" = Some (PyFloat p) /\
    dict_get resp "domain_score" = Some (PyFloat q) /\
    dict_get resp "blended_score" = Some (PyFloat b) /\
    ((0 <=? p)%float = true -> (p <=? 1)%float = true ->
     (0 <=? b)%float = true /\ (b <=? 1)%float = true).
Proof.
  intros H. apply scan_url_inv in H as (p & info & q & Hp & _ & Hq & ->).
  assert (Hin : In q [0%float; 0.25%float; 0.5%float; 0.75%float; 1%float]).
  { destruct (rule_score_quarters info) as (q' & Hq' & Hin). congruence. }
  exists p, q, (0.3 * p + 0.7 * q)%float.
  split; [exact Hp |]. split; [exact Hin |].
  repeat split; try reflexivity.
  - apply (blend_in_unit_interval p q); assumption.
  - apply (blend_in_unit_interval p q); assumption.
Qed.

Lemma scan_url_blends_the_raw_output_witness :
  exists p q b : float,
    positive_proba (url_model (sample_globals 0.9 0.2)) (url_vec (sample_globals 0.9 0.2))
      (lit "http://login.z.xyz/") = Ok p /\
    In q [0%float; 0.25%float; 0.5%float; 0.75%float; 1%float] /\
    b = (0.3 * p + 0.7 * q)%float /\
    dict_get [ ("ml_score"%string, PyFloat 0.9);
               ("domain_score"%string, PyFloat 0.75);
               ("blended_score"%string, PyFloat 0.79499999999999993);
               ("risk"%string, PyStr "HIGH");
               ("phishing"%string, PyBool true) ] "ml_score" = Some (PyFloat p) /\
    dict_get [ ("ml_score"%string, PyFloat 0.9);
               ("domain_score"%string, PyFloat 0.75);
               ("blended_score"%string, PyFloat 0.79499999999999993);
               ("risk"%string, PyStr "HIGH");
               ("phishing"%string, PyBool true) ] "domain_score" = Some (PyFloat q) /\
    dict_get [ ("ml_score"%string, PyFloat 0.9);
               ("domain_score"%string, PyFloat 0.75);
               ("blended_score"%string, PyFloat 0.79499999999999993);
               ("risk"%string, PyStr "HIGH");
               ("phishing"%string, PyBool true) ] "blended_score" = Some (PyFloat b) /\
    ((0 <=? p)%float = true -> (p <=? 1)%float = true ->
     (0 <=? b)%float = true /\ (b <=? 1)%float = true).
Proof.
  apply (scan_url_blends_the_raw_output (sample_globals 0.9 0.2) young_domain_world
           {| url := lit "http://login.z.xyz/" |}).
  reflexivity.
Defined.

(** ** Entropy of the empty string and of a repeated character *)

(** C10, as the claim states it, fails in its last part: the value depends
    on the order in which the set yields the characters, which changes with
    the hash seed of the interpreter process.  Two runs of CPython 3.11 on
    the label google differ in the last bit. *)
Lemma shannon_entropy_depends_on_the_hash_seed :
  set_iter process_seed_21 (lit "google") = lit "ogle" /\
  set_iter process_seed_11 (lit "google") = lit "elgo" /\
  shannon_entropy process_seed_21 (lit "google") = Ok 1.9182958340544893%float /\
  shannon_entropy process_seed_11 (lit "google") = Ok 1.9182958340544896%float /\
  (1.9182958340544893 =? 1.9182958340544896)%float = false /\
  WorldOK process_seed_21 /\ WorldOK process_seed_11.
Proof.
  do 5 (split; [vm_compute; reflexivity |]).
  exact (proj2 more_sample_worlds_ok).
Qed.

(** C10 (amended): the entropy of the empty string is 0.0; the entropy of a
    string made of one repeated character, whatever the character and the
    length, equals 0.0 (it is the zero of negative sign, which [==] does not
    tell from 0.0); the function returns on every string; and its value is a
    function of the string, of the C library's log2 and of the order in
    which the set yields the characters, of nothing else. *)
Theorem shannon_entropy_zero_cases (w : World) :
  WorldOK w ->
  shannon_entropy w [] = Ok 0%float /\
  (exists r, shannon_entropy w (lit "aaaa") = Ok r /\ (r =? 0)%float = true) /\
  (forall (c : codepoint) (n : nat), (0 < n)%nat -> Z.of_nat n <= sys_maxsize ->
     exists r, shannon_entropy w (repeat_char c n) = Ok r /\
               (r =? 0)%float = true /\ r = (- 0)%float) /\
  (forall s : str, len s <= sys_maxsize -> exists r, shannon_entropy w s = Ok r) /\
  (forall (w' : World) (s : str),
     (forall x, libm_log2 w' x = libm_log2 w x) -> set_iter w' s = set_iter w s ->
     shannon_entropy w' s = shannon_entropy w s).
Proof.
  intros Hw. split; [reflexivity |]. split; [| split; [| split]].
  - exists (-0)%float. split; [| reflexivity].
    apply (shannon_entropy_repeat_char w (ord "a") 4 Hw); [lia | unfold sys_maxsize; lia].
  - intros c n Hn Hmax. exists (-0)%float. split; [| split; reflexivity].
    apply shannon_entropy_repeat_char; assumption.
  - intros s Hs. apply shannon_entropy_total; assumption.
  - intros w' s Hl Hs. apply shannon_entropy_ext; assumption.
Qed.

Lemma shannon_entropy_zero_cases_witness :
  shannon_entropy healthy_world [] = Ok 0%float /\
  (exists r, shannon_entropy healthy_world (lit "aaaa") = Ok r /\ (r =? 0)%float = true) /\
  (forall (c : codepoint) (n : nat), (0 < n)%nat -> Z.of_nat n <= sys_maxsize ->
     exists r, shannon_entropy healthy_world (repeat_char c n) = Ok r /\
               (r =? 0)%float = true /\ r = (- 0)%float) /\
  (forall s : str, len s <= sys_maxsize ->
     exists r, shannon_entropy healthy_world s = Ok r) /\
  (forall (w' : World) (s : str),
     (forall x, libm_log2 w' x = libm_log2 healthy_world x) ->
     set_iter w' s = set_iter healthy_world s ->
     shannon_entropy w' s = shannon_entropy healthy_world s).
Proof.
  apply (shannon_entropy_zero_cases healthy_world).
  exact (proj2 (proj2 sample_worlds_ok)).
Defined.

(** * Lemmas for the further properties *)

(** ** NaN and the totality of the order *)

Lemma SFeqb_refl_rank (x : spec_float) : SFeqb x x = true <-> SFrank x <> None.
Proof.
  unfold SFeqb. pose proof (SFcompare_rank x x) as H.
  destruct (SFcompare x x) as [[| |] |]; split; intros K;
    try discriminate; try reflexivity; try tauto; exfalso; rank_solve.
Qed.

Lemma is_nan_rank (x : float) : (x =? x)%float = false <-> SFrank (Prim2SF x) = None.
Proof.
  rewrite FloatAxioms.eqb_spec.
  pose proof (SFeqb_refl_rank (Prim2SF x)) as H.
  destruct (SFeqb (Prim2SF x) (Prim2SF x)); split; intros K; try discriminate; try reflexivity.
  - exfalso. apply (proj1 H eq_refl K).
  - destruct (SFrank (Prim2SF x)) eqn:E; [| reflexivity].
    assert (false = true); [apply H; discriminate | discriminate].
Qed.

Lemma ltb_nan (x c : float) : SFrank (Prim2SF x) = None -> (x <? c)%float = false.
Proof.
  intros H. destruct (x <? c)%float eqn:E; [| reflexivity].
  apply ltb_float_lt in E. unfold float_lt, ranked in E. rewrite H in E. contradiction.
Qed.

Lemma leb_nan (x c : float) : SFrank (Prim2SF x) = None -> (c <=? x)%float = false.
Proof.
  intros H. destruct (c <=? x)%float eqn:E; [| reflexivity].
  apply leb_float_le in E. unfold float_le, ranked in E. rewrite H in E.
  destruct (SFrank (Prim2SF c)); contradiction.
Qed.

(** Two numbers are comparable: [x < c] or [c <= x]. *)
Lemma ltb_or_leb (x c : float) :
  SFrank (Prim2SF x) <> None -> SFrank (Prim2SF c) <> None ->
  (x <? c)%float = true \/ (c <=? x)%float = true.
Proof.
  intros Hx Hc. rewrite FloatAxioms.ltb_spec, FloatAxioms.leb_spec.
  rewrite SFltb_ranked, SFleb_ranked.
  unfold ranked, lex_le, lex_lt.
  destruct (SFrank (Prim2SF x)) as [[[a1 a2] a3] |]; [| contradiction].
  destruct (SFrank (Prim2SF c)) as [[[b1 b2] b3] |]; [| contradiction].
  destruct (Z.lt_trichotomy a1 b1) as [H | [H | H]]; [left; lia | | right; left; lia].
  destruct (Z.lt_trichotomy a2 b2) as [K | [K | K]]; [left; lia | | right; left; lia].
  destruct (Z.lt_trichotomy a3 b3) as [L | [L | L]]; [left; lia | | right; left; lia].
  right; right. subst. reflexivity.
Qed.

Lemma leb_trans_const (a b x : float) :
  (a <=? b)%float = true -> (b <=? x)%float = true -> (a <=? x)%float = true.
Proof.
  intros H K. apply leb_float_le in H, K. apply leb_float_le.
  exact (float_le_trans _ _ _ H K).
Qed.

(** ** Rounding never drops below a representable value *)

Lemma scaled_pos (m : positive) (e : Z) : -2200 <= e -> 0 < scaled (Zpos m) e.
Proof.
  intros H. unfold scaled. pose proof (pow2_pos (e + 2200) ltac:(lia)). nia.
Qed.

Lemma scaled_le_mono (m m' e : Z) : -2200 <= e -> m <= m' -> scaled m e <= scaled m' e.
Proof.
  intros H K. unfold scaled. apply Z.mul_le_mono_nonneg_r; [| exact K].
  pose proof (pow2_pos (e + 2200) ltac:(lia)). lia.
Qed.

(** The shift to the format's exponent keeps the mantissa above every double
    that the value was above. *)
Lemma shr_fexp_ge (M E : Z) (l : location) (my : positive) (ey : Z) :
  0 < M -> -2200 <= E ->
  valid_binary (S754_finite false my ey) = true ->
  scaled (Zpos my) ey <= scaled M E ->
  scaled (Zpos my) ey
    <= scaled (shr_m (fst (shr_fexp prec emax M E l))) (snd (shr_fexp prec emax M E l)) /\
  -2200 <= snd (shr_fexp prec emax M E l).
Proof.
  intros HM HE V Hle.
  pose proof (valid_binary_exponent _ _ _ V) as (Vey & _).
  pose proof (mantissa_lt_pow53 _ _ _ V) as Vmy.
  unfold shr_fexp, shr. change (fexp prec emax) with fexp64. rewrite fexp64_eq.
  destruct (Z.max (Zdigits2 M + E - 53) (-1074) - E) as [| n | n] eqn:Hn; cbn [fst snd];
    rewrite ?shr_m_of_loc; try (split; [exact Hle | lia]).
  rewrite shr_m_iter_pos by (rewrite shr_m_of_loc; lia). rewrite shr_m_of_loc.
  split; [| lia].
  set (e1 := E + Zpos n) in *.
  assert (P0 : 0 < 2 ^ (E + 2200)) by (apply pow2_pos; lia).
  assert (Pn : 0 < 2 ^ Zpos n) by (apply pow2_pos; lia).
  rewrite Z.shiftr_div_pow2 by lia.
  destruct (Z.le_gt_cases e1 ey) as [C | C].
  - (* y is a multiple of the unit 2^e1 *)
    assert (X2 : scaled (Zpos my) ey =
                 Zpos my * 2 ^ (ey - e1) * 2 ^ Zpos n * 2 ^ (E + 2200)).
    { rewrite (scaled_shift (Zpos my) E ey) by (unfold e1 in C; lia).
      replace (ey - E) with ((ey - e1) + Zpos n) by (unfold e1; lia).
      rewrite Z.pow_add_r by lia. ring. }
    assert (X1 : scaled (M / 2 ^ Zpos n) e1 = M / 2 ^ Zpos n * 2 ^ Zpos n * 2 ^ (E + 2200)).
    { rewrite (scaled_shift _ E e1) by (unfold e1; lia).
      replace (e1 - E) with (Zpos n) by (unfold e1; lia). reflexivity. }
    rewrite X1. rewrite X2 in Hle |- *. unfold scaled in Hle.
    set (k := Zpos my * 2 ^ (ey - e1)) in *.
    assert (K : k * 2 ^ Zpos n <= M).
    { apply Z.mul_le_mono_pos_r with (p := 2 ^ (E + 2200)); assumption. }
    assert (k <= M / 2 ^ Zpos n) by (apply Z.div_le_lower_bound; lia).
    apply Z.mul_le_mono_nonneg_r; [lia |].
    apply Z.mul_le_mono_nonneg_r; lia.
  - (* y lies below the binade of the shifted mantissa *)
    assert (D : e1 = Zdigits2 M + E - 53) by (unfold e1 in *; lia).
    assert (G : 2 ^ 52 <= M / 2 ^ Zpos n).
    { rewrite <- Z.shiftr_div_pow2 by lia.
      assert (Hs : 0 < Z.shiftr M (Zpos n)).
      { pose proof (Z.shiftr_nonneg M (Zpos n)).
        assert (Z.shiftr M (Zpos n) <> 0).
        { intros K. apply Z.shiftr_eq_0_iff in K.
          rewrite (Zdigits2_log2 M HM) in D. unfold e1 in D. lia. }
        lia. }
      pose proof (Z.log2_spec _ Hs) as [L2 _].
      rewrite Z.log2_shiftr in L2 by lia.
      rewrite (Zdigits2_log2 M HM) in D. unfold e1 in D.
      replace (Z.max 0 (Z.log2 M - Zpos n)) with 52 in L2 by lia.
      exact L2. }
    rewrite (scaled_shift (M / 2 ^ Zpos n) ey e1) by lia.
    unfold scaled at 1.
    apply Z.mul_le_mono_nonneg_r; [pose proof (pow2_pos (ey + 2200)); lia |].
    assert (2 ^ 1 <= 2 ^ (e1 - ey)) by (apply Z.pow_le_mono_r; lia).
    change (2 ^ 1) with 2 in *.
    apply Z.le_trans with (2 ^ 52 * 2); [change (2 ^ 52 * 2) with (2 ^ 53); lia |].
    apply Z.mul_le_mono_nonneg; lia.
Qed.

(** Rounding a positive value that is at least the double [(my, ey)] gives
    a double that is at least it, or +infinity. *)
Lemma binary_round_aux_ge (M E : Z) (l : location) (my : positive) (ey : Z) :
  0 < M -> -2200 <= E ->
  valid_binary (S754_finite false my ey) = true ->
  scaled (Zpos my) ey <= scaled M E ->
  at_least (scaled (Zpos my) ey) (binary_round_aux prec emax false M E l).
Proof.
  intros HM HE V Hle.
  pose proof (valid_binary_exponent _ _ _ V) as (Vey & _).
  pose proof (scaled_pos my ey ltac:(lia)) as Py.
  unfold binary_round_aux.
  pose proof (shr_fexp_ge M E l my ey HM HE V Hle) as (H1 & E1).
  destruct (shr_fexp prec emax M E l) as [mrs1 e1]. cbn [fst snd] in *.
  pose proof (round_nearest_even_bounds (shr_m mrs1) (loc_of_shr_record mrs1)) as [R _].
  set (m2 := round_nearest_even (shr_m mrs1) (loc_of_shr_record mrs1)) in *.
  assert (H2 : scaled (Zpos my) ey <= scaled m2 e1).
  { etransitivity; [exact H1 | apply scaled_le_mono; assumption]. }
  assert (M2 : 0 < m2).
  { unfold scaled in H2. pose proof (pow2_pos (e1 + 2200) ltac:(lia)). nia. }
  pose proof (shr_fexp_ge m2 e1 loc_Exact my ey M2 E1 V H2) as (H3 & E3).
  destruct (shr_fexp prec emax m2 e1 loc_Exact) as [mrs2 e2]. cbn [fst snd] in *.
  destruct (shr_m mrs2) as [| m3 | m3] eqn:Hm3.
  - exfalso. unfold scaled in H3. lia.
  - destruct (e2 <=? emax - prec); [exact H3 | exact I].
  - exfalso. unfold scaled in H3. pose proof (pow2_pos (e2 + 2200) ltac:(lia)). nia.
Qed.

Lemma binary_round_ge (S : positive) (E : Z) (my : positive) (ey : Z) :
  -2200 <= E ->
  valid_binary (S754_finite false my ey) = true ->
  scaled (Zpos my) ey <= scaled (Zpos S) E ->
  at_least (scaled (Zpos my) ey) (binary_round prec emax false S E).
Proof.
  intros HE V H. unfold binary_round.
  assert (F : -2200 <= fexp prec emax (Zpos (digits2_pos S) + E)).
  { change (fexp prec emax) with fexp64. rewrite fexp64_eq. lia. }
  pose proof (shl_align_scaled S E _ HE F) as (A & B).
  destruct (shl_align S E (fexp prec emax (Zpos (digits2_pos S) + E))) as [mz ez].
  cbn [fst snd] in *.
  apply binary_round_aux_ge; try assumption; lia.
Qed.

(** Adding a non-negative double to the positive double [b] gives at least
    [b]. *)
Lemma SFadd_at_least (a : spec_float) (Ba : Z) (mb : positive) (eb : Z) :
  valid_binary a = true -> nonneg_below Ba a ->
  valid_binary (S754_finite false mb eb) = true ->
  at_least (scaled (Zpos mb) eb) (SFadd prec emax a (S754_finite false mb eb)).
Proof.
  intros Va Ha Vb.
  pose proof (valid_binary_exponent _ _ _ Vb) as (Eb & _).
  destruct a as [sa | sa | | sa ma ea]; try contradiction.
  - cbn. lia.
  - destruct sa; [contradiction |]. cbn [SFadd cond_Zopp].
    pose proof (valid_binary_exponent _ _ _ Va) as (Ea & _).
    set (ez := Z.min ea eb).
    pose proof (shl_align_fst ma ea ez ltac:(unfold ez; lia)) as Fa.
    pose proof (shl_align_fst mb eb ez ltac:(unfold ez; lia)) as Fb.
    set (ma' := fst (shl_align ma ea ez)) in *.
    set (mb' := fst (shl_align mb eb ez)) in *.
    change (Zpos ma' + Zpos mb') with (Zpos (ma' + mb')).
    cbn [binary_normalize].
    apply binary_round_ge; try assumption; [unfold ez; lia |].
    rewrite Pos2Z.inj_add, Fb.
    rewrite (scaled_shift (Zpos mb) ez eb) by (unfold ez; lia).
    unfold scaled.
    apply Z.mul_le_mono_nonneg_r; [pose proof (pow2_pos (ez + 2200)); unfold ez in *; lia |].
    lia.
Qed.

Lemma SFleb_of_at_least (r : spec_float) (my : positive) (ey : Z) :
  valid_binary r = true -> valid_binary (S754_finite false my ey) = true ->
  at_least (scaled (Zpos my) ey) r -> SFleb (S754_finite false my ey) r = true.
Proof.
  intros Vr Vy H. destruct r as [s | s | | s m e]; try contradiction.
  - destruct s; [contradiction | reflexivity].
  - destruct s; [contradiction |]. apply SFleb_of_scaled_le; assumption.
Qed.

Lemma SFleb_of_nonneg_below (r : spec_float) (my : positive) (ey : Z) :
  valid_binary r = true -> valid_binary (S754_finite false my ey) = true ->
  nonneg_below (scaled (Zpos my) ey) r -> SFleb r (S754_finite false my ey) = true.
Proof.
  intros Vr Vy H. destruct r as [s | s | | s m e]; try contradiction.
  - reflexivity.
  - destruct s; [contradiction |]. apply SFleb_of_scaled_le; assumption.
Qed.

(** ** How far the classifier and the rules can move the blend *)

Lemma weighted_ml_shape (p : float) :
  (0 <=? p)%float = true -> (p <=? 1)%float = true ->
  nonneg_below (scaled 5404319552844595 (-54)) (Prim2SF (0.3 * p)%float).
Proof.
  intros H0 H1. rewrite FloatAxioms.mul_spec.
  change (Prim2SF 0.3) with (S754_finite false 5404319552844595 (-54)).
  apply SFmul_nonneg_below; [reflexivity | lia | apply Prim2SF_valid |].
  apply float_unit_interval_shape; assumption.
Qed.

(** With at most one rule firing, the blend stays at or below
    [0.3 + 0.7 * q], which is below the decision threshold. *)
Lemma blend_at_most (p q : float) :
  (0 <=? p)%float = true -> (p <=? 1)%float = true ->
  In q [0%float; 0.25%float] ->
  (0.3 * p + 0.7 * q <=? 0.3 + 0.7 * q)%float = true.
Proof.
  intros H0 H1 Hq.
  pose proof (Prim2SF_valid (0.3 * p + 0.7 * q)%float) as Vr.
  rewrite FloatAxioms.leb_spec. rewrite FloatAxioms.add_spec in Vr |- *.
  destruct Hq as [<- | [<- | []]].
  - change (Prim2SF (0.3 + 0.7 * 0)) with (S754_finite false 5404319552844595 (-54)).
    apply SFleb_of_nonneg_below; [exact Vr | reflexivity |].
    apply (SFadd_nonneg_below _ _ (scaled 5404319552844595 (-54)) 0);
      [apply Prim2SF_valid | apply Prim2SF_valid | apply weighted_ml_shape; assumption
      | exact I | vm_compute; discriminate | lia | reflexivity | lia | lia].
  - change (Prim2SF (0.3 + 0.7 * 0.25)) with (S754_finite false 8556839292003942 (-54)).
    apply SFleb_of_nonneg_below; [exact Vr | reflexivity |].
    apply (SFadd_nonneg_below _ _ (scaled 5404319552844595 (-54))
             (scaled 6305039478318694 (-55)));
      [apply Prim2SF_valid | apply Prim2SF_valid | apply weighted_ml_shape; assumption
      | vm_compute; discriminate | vm_compute; discriminate | vm_compute; discriminate
      | reflexivity | lia | vm_compute; discriminate].
Qed.

(** Whatever the classifier says, the blend is at least the weighted rule
    score [0.7 * q]. *)
Lemma blend_at_least (p q : float) :
  (0 <=? p)%float = true -> (p <=? 1)%float = true ->
  In q [0.25%float; 0.5%float; 0.75%float; 1%float] ->
  (0.7 * q <=? 0.3 * p + 0.7 * q)%float = true.
Proof.
  intros H0 H1 Hq.
  pose proof (Prim2SF_valid (0.3 * p + 0.7 * q)%float) as Vr.
  pose proof (Prim2SF_valid (0.7 * q)%float) as Vb.
  assert (Hb : exists mb eb, Prim2SF (0.7 * q)%float = S754_finite false mb eb).
  { destruct Hq as [<- | [<- | [<- | [<- | []]]]]; vm_compute; eauto. }
  destruct Hb as (mb & eb & Hb).
  rewrite FloatAxioms.leb_spec. rewrite FloatAxioms.add_spec in Vr |- *.
  rewrite Hb in *.
  apply SFleb_of_at_least; [exact Vr | exact Vb |].
  apply (SFadd_at_least _ (scaled 5404319552844595 (-54)));
    [apply Prim2SF_valid | apply weighted_ml_shape; assumption | exact Vb].
Qed.

Lemma leb_false_of_ltb (x c : float) : (x <? c)%float = true -> (c <=? x)%float = false.
Proof.
  intros H. apply ltb_float_lt in H.
  destruct (c <=? x)%float eqn:K; [| reflexivity].
  apply leb_float_le in K. exfalso. exact (float_lt_not_le _ _ H K).
Qed.

(** ** More on the rule scorer *)

Lemma rule_score_count_cases (info : Info) (q : float) :
  rule_score info = Ok q ->
  (count_true (conditions info) = 0 /\ q = 0%float) \/
  (count_true (conditions info) = 1 /\ q = 0.25%float) \/
  (count_true (conditions info) = 2 /\ q = 0.5%float) \/
  (count_true (conditions info) = 3 /\ q = 0.75%float) \/
  (count_true (conditions info) = 4 /\ q = 1%float).
Proof.
  unfold rule_score, conditions, count_true.
  destruct (match age info with Some a => a <? 30 | None => false end);
    destruct (dns info); destruct (ssl info);
    destruct (3.5 <? entropy info)%float;
    intros H; injection H as <-; cbn; tauto.
Qed.

(** ** More on the prober *)

Lemma split_head_prefix (sep : codepoint) (s : str) :
  exists h rest,
    getitem (split sep s) 0 = Ok h /\ s = h ++ rest /\
    (rest = [] \/ exists r, rest = sep :: r) /\
    ~ In sep h.
Proof.
  induction s as [| a s (h & rest & Hh & Hs & Hr & Hm)]; cbn [split].
  - exists [], []. cbn. tauto.
  - destruct (N.eqb a sep) eqn:E.
    + apply N.eqb_eq in E. subst a.
      exists [], (sep :: s). cbn. split; [reflexivity |].
      split; [reflexivity |]. split; [right; eauto | tauto].
    + destruct (split sep s) as [| h' t]; [discriminate |].
      injection Hh as ->.
      exists (a :: h), rest. cbn [app In].
      split; [reflexivity |]. split; [congruence |]. split; [exact Hr |].
      intros [K | K]; [| exact (Hm K)].
      subst a. rewrite N.eqb_refl in E. discriminate.
Qed.

Lemma extract_domain_info_inv (w : World) (u : str) (info : Info) :
  extract_domain_info w u = Ok info ->
  exists netloc label,
    urlparse_netloc w u = Ok netloc /\
    getitem (split (ord ".") (registered_domain w (if len netloc =? 0 then u else netloc))) 0
      = Ok label /\
    shannon_entropy w label = Ok (entropy info) /\
    age info = try_except
                 (whois_age w (registered_domain w (if len netloc =? 0 then u else netloc)))
                 None /\
    dns info = try_except
                 (_ <- dns_resolve w (registered_domain w (if len netloc =? 0 then u else netloc)) ;;
                  Ok true) false /\
    ssl info = try_except
                 (_ <- tls_handshake w (registered_domain w (if len netloc =? 0 then u else netloc)) ;;
                  Ok true) false.
Proof.
  unfold extract_domain_info. intros H.
  apply bind_Ok_inv in H as (netloc & Hn & H). cbv zeta in H.
  apply bind_Ok_inv in H as (label & Hl & H).
  apply bind_Ok_inv in H as (e & He & H).
  injection H as <-. exists netloc, label. cbn. auto 10.
Qed.

Lemma extract_domain_info_returns (w : World) (u netloc : str) :
  WorldOK w ->
  urlparse_netloc w u = Ok netloc ->
  len (registered_domain w (if len netloc =? 0 then u else netloc)) <= sys_maxsize ->
  exists info, extract_domain_info w u = Ok info.
Proof.
  intros Hw Hn Hmax.
  destruct (split_head (ord ".") (registered_domain w (if len netloc =? 0 then u else netloc)))
    as (label & Hlabel & Hlen).
  destruct (shannon_entropy_total w label Hw ltac:(lia)) as (ent & Hent).
  unfold extract_domain_info. rewrite (bind_Ok _ _ _ Hn). cbv zeta.
  rewrite (bind_Ok _ _ _ Hlabel), (bind_Ok _ _ _ Hent). eexists. reflexivity.
Qed.

(** ** NaN through the blend *)



(** * Further properties *)

(** X1: the risk tier never decreases when the score increases
    (LOW < MEDIUM < HIGH). *)
Theorem risk_level_is_monotone (x y : float) :
  (x <=? y)%float = true -> risk_rank (risk_level x) <= risk_rank (risk_level y).
Proof.
  intros H. unfold risk_level.
  destruct (y <? 0.3)%float eqn:Y3.
  - rewrite (ltb_of_leb_ltb _ _ _ H Y3). cbn. lia.
  - destruct (y <? 0.6)%float eqn:Y6.
    + rewrite (ltb_of_leb_ltb _ _ _ H Y6). destruct (x <? 0.3)%float; cbn; lia.
    + destruct (x <? 0.3)%float; [| destruct (x <? 0.6)%float]; cbn; lia.
Qed.

Lemma risk_level_is_monotone_witness :
  risk_rank (risk_level 0.2) <= risk_rank (risk_level 0.7).
Proof. apply (risk_level_is_monotone 0.2 0.7). reflexivity. Defined.

(** X2: a flagged score is never LOW, and a score is HIGH without being
    flagged exactly when it is NaN. *)
Theorem risk_and_flag_agree_except_on_nan (x : float) :
  ((0.5 <=? x)%float = true -> risk_level x <> "LOW"%string) /\
  (risk_level x = "LOW"%string -> (0.5 <=? x)%float = false) /\
  ((risk_level x = "HIGH"%string /\ (0.5 <=? x)%float = false) <-> (x =? x)%float = false).
Proof.
  assert (L : (0.5 <=? x)%float = true -> risk_level x <> "LOW"%string).
  { intros H. unfold risk_level. rewrite (ltb_false_above 0.3 0.5 x eq_refl H).
    destruct (x <? 0.6)%float; discriminate. }
  split; [exact L |]. split.
  - intros H. destruct (0.5 <=? x)%float eqn:E; [| reflexivity].
    exfalso. exact (L eq_refl H).
  - split.
    + intros [Hr Hf].
      destruct (x =? x)%float eqn:E; [exfalso | reflexivity].
      assert (Nx : SFrank (Prim2SF x) <> None).
      { intros K. apply is_nan_rank in K. congruence. }
      destruct (ltb_or_leb x 0.6 Nx ltac:(discriminate)) as [K | K].
      * unfold risk_level in Hr. rewrite K in Hr.
        destruct (x <? 0.3)%float; discriminate.
      * rewrite (leb_trans_const 0.5 0.6 x eq_refl K) in Hf. discriminate.
    + intros H. apply is_nan_rank in H. unfold risk_level.
      rewrite !(ltb_nan x _ H), (leb_nan x _ H). split; reflexivity.
Qed.

(** X5: with every model loaded or not, /scan_url raises exactly the
    exception of the classifier call, or else the exception of urlparse;
    the probes, the entropy and the rule score never make it fail. *)
Theorem scan_url_failure_modes (g : Globals) (w : World) (data : URLRequest) (e : exn) :
  WorldOK w ->
  (forall d, len (registered_domain w d) <= sys_maxsize) ->
  (scan_url g w data = Raise e <->
   positive_proba (url_model g) (url_vec g) (url data) = Raise e \/
   exists p, positive_proba (url_model g) (url_vec g) (url data) = Ok p /\
             urlparse_netloc w (url data) = Raise e).
Proof.
  intros Hw Hlen. unfold scan_url.
  destruct (positive_proba (url_model g) (url_vec g) (url data)) as [p | e1]; cbn [bind].
  - destruct (urlparse_netloc w (url data)) as [netloc | e2] eqn:U.
    + destruct (extract_domain_info_returns w (url data) netloc Hw U (Hlen _))
        as (info & ->).
      cbn [bind]. destruct (rule_score_ok info) as (q & ->). cbn [bind].
      split; [discriminate |].
      intros [H | (p' & _ & H)]; discriminate.
    + unfold extract_domain_info. rewrite U. cbn [bind].
      split.
      * intros H. injection H as ->. right. exists p. split; reflexivity.
      * intros [H | (p' & _ & H)]; [discriminate | injection H as ->; reflexivity].
  - split.
    + intros H. injection H as ->. left. reflexivity.
    + intros [H | (p' & H & _)]; [injection H as ->; reflexivity | discriminate].
Qed.

Lemma scan_url_failure_modes_witness :
  scan_url initial_globals offline_world {| url := lit "not-a-url" |} = Raise AttributeError <->
  positive_proba (url_model initial_globals) (url_vec initial_globals) (lit "not-a-url")
    = Raise AttributeError \/
  exists p, positive_proba (url_model initial_globals) (url_vec initial_globals)
              (lit "not-a-url") = Ok p /\
            urlparse_netloc offline_world (lit "not-a-url") = Raise AttributeError.
Proof.
  apply (scan_url_failure_modes initial_globals offline_world {| url := lit "not-a-url" |}
           AttributeError).
  - exact (proj1 sample_worlds_ok).
  - intros d. vm_compute. discriminate.
Defined.

(** X6: the four rules weigh the same: a domain that does not resolve, a
    failed handshake, a known age under 30 days and an entropy above 3.5
    each add exactly 0.25; an unknown age scores like an age of 30 days or
    more. *)
Theorem rule_score_equal_weights :
  (forall a s e q,
     rule_score {| age := a; dns := true; ssl := s; entropy := e |} = Ok q ->
     rule_score {| age := a; dns := false; ssl := s; entropy := e |} = Ok (q + 0.25)%float) /\
  (forall a d e q,
     rule_score {| age := a; dns := d; ssl := true; entropy := e |} = Ok q ->
     rule_score {| age := a; dns := d; ssl := false; entropy := e |} = Ok (q + 0.25)%float) /\
  (forall a d s e q, a < 30 ->
     rule_score {| age := None; dns := d; ssl := s; entropy := e |} = Ok q ->
     rule_score {| age := Some a; dns := d; ssl := s; entropy := e |}
       = Ok (q + 0.25)%float) /\
  (forall a d s e, 30 <= a ->
     rule_score {| age := Some a; dns := d; ssl := s; entropy := e |} =
     rule_score {| age := None; dns := d; ssl := s; entropy := e |}) /\
  (forall a d s e1 e2 q, (3.5 <? e1)%float = false -> (3.5 <? e2)%float = true ->
     rule_score {| age := a; dns := d; ssl := s; entropy := e1 |} = Ok q ->
     rule_score {| age := a; dns := d; ssl := s; entropy := e2 |} = Ok (q + 0.25)%float).
Proof.
  unfold rule_score. cbn [age dns ssl entropy].
  repeat split.
  - intros a s e q.
    destruct (match a with Some a0 => a0 <? 30 | None => false end);
      destruct s; destruct (3.5 <? e)%float;
      intros H; injection H as <-; reflexivity.
  - intros a d e q.
    destruct (match a with Some a0 => a0 <? 30 | None => false end);
      destruct d; destruct (3.5 <? e)%float;
      intros H; injection H as <-; reflexivity.
  - intros a d s e q Ha.
    replace (a <? 30) with true by (symmetry; apply Z.ltb_lt; exact Ha).
    destruct d; destruct s; destruct (3.5 <? e)%float;
      intros H; injection H as <-; reflexivity.
  - intros a d s e Ha.
    replace (a <? 30) with false by (symmetry; apply Z.ltb_ge; exact Ha).
    reflexivity.
  - intros a d s e1 e2 q -> ->.
    destruct (match a with Some a0 => a0 <? 30 | None => false end);
      destruct d; destruct s;
      intros H; injection H as <-; reflexivity.
Qed.

(** X7: the age rule fires exactly when the date read from WHOIS is naive,
    like [utcnow()], and lies less than 30 whole days before it (a date in
    the future included); an aware date never fires it: the subtraction
    raises TypeError and the age is None. *)
Theorem young_domain_rule_in_time (w : World) (u : str) (info : Info)
    (netloc : str) (v : PyValue) (d : datetime) :
  extract_domain_info w u = Ok info ->
  urlparse_netloc w u = Ok netloc ->
  whois_creation_date w (registered_domain w (if len netloc =? 0 then u else netloc)) = Ok v ->
  creation_datetime v = Some d ->
  (match age info with Some a => a <? 30 | None => false end = true <->
   tz_aware d = false /\
   timestamp_us (utcnow w) - timestamp_us d < 30 * 86400000000) /\
  (tz_aware d = true ->
   days_since (utcnow w) d = Raise TypeError /\ age info = None /\
   match age info with Some a => a <? 30 | None => false end = false).
Proof.
  intros Hi Hn Hv Hd.
  apply extract_domain_info_inv in Hi as (netloc' & label & Hn' & _ & _ & Ha & _).
  rewrite Hn in Hn'. injection Hn' as <-.
  rewrite Ha, (whois_age_date _ _ _ _ Hv Hd). unfold days_since, utcnow.
  cbn [tz_aware timestamp_us xorb].
  destruct (tz_aware d).
  - split; [split; [discriminate | intros [K _]; discriminate] |].
    intros _. repeat split.
  - split; [| discriminate].
    rewrite Z.ltb_lt. split.
    + intros H. split; [reflexivity |].
      pose proof (Z.div_mod (clock_us w - timestamp_us d) 86400000000 ltac:(lia)) as Q.
      pose proof (Z.mod_pos_bound (clock_us w - timestamp_us d) 86400000000 ltac:(lia)) as R.
      lia.
    + intros [_ H]. apply Z.div_lt_upper_bound; lia.
Qed.

Lemma young_domain_rule_in_time_witness :
  (match age {| age := Some 5; dns := false; ssl := false; entropy := (-0)%float |} with
   | Some a => a <? 30
   | None => false
   end = true <->
   tz_aware {| timestamp_us := 1793793600000000 - 5 * 86400000000 - 1; tz_aware := false |}
     = false /\
   timestamp_us (utcnow young_domain_world)
     - timestamp_us {| timestamp_us := 1793793600000000 - 5 * 86400000000 - 1;
                       tz_aware := false |}
     < 30 * 86400000000) /\
  (tz_aware {| timestamp_us := 1793793600000000 - 5 * 86400000000 - 1; tz_aware := false |}
     = true ->
   days_since (utcnow young_domain_world)
     {| timestamp_us := 1793793600000000 - 5 * 86400000000 - 1; tz_aware := false |}
     = Raise TypeError /\
   age {| age := Some 5; dns := false; ssl := false; entropy := (-0)%float |} = None /\
   match age {| age := Some 5; dns := false; ssl := false; entropy := (-0)%float |} with
   | Some a => a <? 30
   | None => false
   end = false).
Proof.
  apply (young_domain_rule_in_time young_domain_world (lit "http://login.z.xyz/")
           {| age := Some 5; dns := false; ssl := false; entropy := (-0)%float |}
           (lit "login.z.xyz")
           (PyList [PyDatetime {| timestamp_us := 1793793600000000 - 5 * 86400000000 - 1;
                                  tz_aware := false |};
                    PyDatetime sample_now])
           {| timestamp_us := 1793793600000000 - 5 * 86400000000 - 1; tz_aware := false |});
    reflexivity.
Defined.

(** X8: the entropy signal is computed on the part of the registrable domain
    before its first dot: that label holds no dot, and the domain is the
    label alone or the label followed by a dot and the rest. *)
Theorem entropy_is_of_the_first_label (w : World) (u : str) (info : Info) :
  extract_domain_info w u = Ok info ->
  exists netloc label rest,
    urlparse_netloc w u = Ok netloc /\
    registered_domain w (if len netloc =? 0 then u else netloc) = label ++ rest /\
    (rest = [] \/ exists r, rest = ord "." :: r) /\
    ~ In (ord ".") label /\
    shannon_entropy w label = Ok (entropy info).
Proof.
  intros Hi.
  apply extract_domain_info_inv in Hi as (netloc & label & Hn & Hl & He & _).
  destruct (split_head_prefix (ord ".")
              (registered_domain w (if len netloc =? 0 then u else netloc)))
    as (h & rest & Hh & Hs & Hr & Hm).
  rewrite Hl in Hh. injection Hh as <-.
  exists netloc, label, rest. auto.
Qed.

Lemma entropy_is_of_the_first_label_witness :
  exists netloc label rest,
    urlparse_netloc young_domain_world (lit "http://login.z.xyz/") = Ok netloc /\
    registered_domain young_domain_world
      (if len netloc =? 0 then lit "http://login.z.xyz/" else netloc)
      = label ++ rest /\
    (rest = [] \/ exists r, rest = ord "." :: r) /\
    ~ In (ord ".") label /\
    shannon_entropy young_domain_world label
      = Ok (entropy {| age := Some 5; dns := false; ssl := false; entropy := (-0)%float |}).
Proof.
  apply (entropy_is_of_the_first_label young_domain_world (lit "http://login.z.xyz/")
           {| age := Some 5; dns := false; ssl := false; entropy := (-0)%float |}).
  reflexivity.
Defined.

Lemma scan_url_fields (g : Globals) (w : World) (data : URLRequest) (resp : dict)
    (info : Info) (p : float) :
  scan_url g w data = Ok resp ->
  extract_domain_info w (url data) = Ok info ->
  dict_get resp "ml_score" = Some (PyFloat p) ->
  exists q,
    rule_score info = Ok q /\
    dict_get resp "blended_score" = Some (PyFloat (0.3 * p + 0.7 * q)%float) /\
    dict_get resp "risk" = Some (PyStr (risk_level (0.3 * p + 0.7 * q)%float)) /\
    dict_get resp "phishing" = Some (PyBool (0.5 <=? 0.3 * p + 0.7 * q)%float).
Proof.
  intros H Hi Hp.
  apply scan_url_inv in H as (p' & info' & q & _ & Hi' & Hq & ->).
  rewrite Hi in Hi'. injection Hi' as <-.
  cbn in Hp. injection Hp as <-.
  exists q. repeat split; [exact Hq | ..]; reflexivity.
Qed.

(** X9: with a classifier output in [0, 1] and fewer than two rules firing,
    /scan_url never flags the URL and never labels it HIGH: the classifier
    alone cannot flag. *)
Theorem scan_url_one_rule_never_flags (g : Globals) (w : World) (data : URLRequest)
    (resp : dict) (info : Info) (p : float) :
  scan_url g w data = Ok resp ->
  extract_domain_info w (url data) = Ok info ->
  dict_get resp "ml_score" = Some (PyFloat p) ->
  (0 <=? p)%float = true -> (p <=? 1)%float = true ->
  count_true (conditions info) <= 1 ->
  dict_get resp "phishing" = Some (PyBool false) /\
  dict_get resp "risk" <> Some (PyStr "HIGH").
Proof.
  intros H Hi Hp H0 H1 Hc.
  destruct (scan_url_fields g w data resp info p H Hi Hp) as (q & Hq & _ & Hr & Hf).
  assert (Hin : In q [0%float; 0.25%float]).
  { destruct (rule_score_count_cases info q Hq)
      as [[_ ->] | [[_ ->] | [[K _] | [[K _] | [K _]]]]]; cbn; auto; lia. }
  pose proof (blend_at_most p q H0 H1 Hin) as B.
  assert (B5 : (0.3 + 0.7 * q <? 0.5)%float = true).
  { destruct Hin as [<- | [<- | []]]; reflexivity. }
  pose proof (ltb_of_leb_ltb _ _ _ B B5) as L5.
  assert (L6 : (0.3 * p + 0.7 * q <? 0.6)%float = true).
  { apply ltb_float_lt. apply ltb_float_lt in L5.
    apply (float_lt_trans _ 0.5); [exact L5 | apply ltb_float_lt; reflexivity]. }
  rewrite Hf, Hr, (leb_false_of_ltb _ _ L5). split; [reflexivity |].
  unfold risk_level. rewrite L6.
  destruct (0.3 * p + 0.7 * q <? 0.3)%float; discriminate.
Qed.

Lemma scan_url_one_rule_never_flags_witness :
  dict_get [ ("ml_score"%string, PyFloat 0.9);
             ("domain_score"%string, PyFloat 0);
             ("blended_score"%string, PyFloat 0.27);
             ("risk"%string, PyStr "LOW");
             ("phishing"%string, PyBool false) ] "phishing" = Some (PyBool false) /\
  dict_get [ ("ml_score"%string, PyFloat 0.9);
             ("domain_score"%string, PyFloat 0);
             ("blended_score"%string, PyFloat 0.27);
             ("risk"%string, PyStr "LOW");
             ("phishing"%string, PyBool false) ] "risk" <> Some (PyStr "HIGH").
Proof.
  apply (scan_url_one_rule_never_flags (sample_globals 0.9 0.2) short_domain_world
           {| url := lit "https://t.co/abc" |} _
           {| age := Some 11548; dns := true; ssl := true; entropy := (-0)%float |} 0.9);
    try reflexivity.
  vm_compute. discriminate.
Defined.

(** X10: with a classifier output in [0, 1], the rules set a floor under the
    answer of /scan_url: two or more firing rules exclude LOW, three or more
    always flag the URL, and all four give HIGH. *)
Theorem scan_url_rules_set_a_floor (g : Globals) (w : World) (data : URLRequest)
    (resp : dict) (info : Info) (p : float) :
  scan_url g w data = Ok resp ->
  extract_domain_info w (url data) = Ok info ->
  dict_get resp "ml_score" = Some (PyFloat p) ->
  (0 <=? p)%float = true -> (p <=? 1)%float = true ->
  2 <= count_true (conditions info) ->
  dict_get resp "risk" <> Some (PyStr "LOW") /\
  (3 <= count_true (conditions info) -> dict_get resp "phishing" = Some (PyBool true)) /\
  (count_true (conditions info) = 4 -> dict_get resp "risk" = Some (PyStr "HIGH")).
Proof.
  intros H Hi Hp H0 H1 Hc.
  destruct (scan_url_fields g w data resp info p H Hi Hp) as (q & Hq & _ & Hr & Hf).
  assert (Hin : In q [0.25%float; 0.5%float; 0.75%float; 1%float] /\
                (0.3 <=? 0.7 * q)%float = true /\
                (3 <= count_true (conditions info) -> (0.5 <=? 0.7 * q)%float = true) /\
                (count_true (conditions info) = 4 -> (0.6 <=? 0.7 * q)%float = true)).
  { destruct (rule_score_count_cases info q Hq)
      as [[K _] | [[K _] | [[K ->] | [[K ->] | [K ->]]]]]; try lia;
      (split; [cbn; auto | split; [reflexivity | split; intros; try reflexivity; lia]]). }
  destruct Hin as (Hin & B3 & B5 & B6).
  pose proof (blend_at_least p q H0 H1 Hin) as B.
  rewrite Hf, Hr. split; [| split].
  - unfold risk_level.
    rewrite (ltb_false_of_leb _ _ (leb_trans_const _ _ _ B3 B)).
    destruct (0.3 * p + 0.7 * q <? 0.6)%float; discriminate.
  - intros K. rewrite (leb_trans_const _ _ _ (B5 K) B). reflexivity.
  - intros K. rewrite (risk_level_HIGH _ (leb_trans_const _ _ _ (B6 K) B)). reflexivity.
Qed.

Lemma scan_url_rules_set_a_floor_witness :
  dict_get [ ("ml_score"%string, PyFloat 0.2);
             ("domain_score"%string, PyFloat 0.75);
             ("blended_score"%string, PyFloat 0.58499999999999996);
             ("risk"%string, PyStr "MEDIUM");
             ("phishing"%string, PyBool true) ] "risk" <> Some (PyStr "LOW") /\
  (3 <= count_true (conditions {| age := Some 5; dns := false; ssl := false;
                                  entropy := (-0)%float |}) ->
   dict_get [ ("ml_score"%string, PyFloat 0.2);
              ("domain_score"%string, PyFloat 0.75);
              ("blended_score"%string, PyFloat 0.58499999999999996);
              ("risk"%string, PyStr "MEDIUM");
              ("phishing"%string, PyBool true) ] "phishing" = Some (PyBool true)) /\
  (count_true (conditions {| age := Some 5; dns := false; ssl := false;
                             entropy := (-0)%float |}) = 4 ->
   dict_get [ ("ml_score"%string, PyFloat 0.2);
              ("domain_score"%string, PyFloat 0.75);
              ("blended_score"%string, PyFloat 0.58499999999999996);
              ("risk"%string, PyStr "MEDIUM");
              ("phishing"%string, PyBool true) ] "risk" = Some (PyStr "HIGH")).
Proof.
  apply (scan_url_rules_set_a_floor (sample_globals 0.2 0.2) young_domain_world
           {| url := lit "http://login.z.xyz/" |} _
           {| age := Some 5; dns := false; ssl := false; entropy := (-0)%float |} 0.2);
    try reflexivity.
  vm_compute. discriminate.
Defined.


